(** * Lead capture form: session identity, submission workflow, migration

    A shallow embedding of
    - [lib/session.ts]                     (session identity provider),
    - [components/LeadCaptureForm.tsx]     (submission orchestrator and view),
    - [supabase/migrations/2025...3be33.sql] (industry column migration),
    followed by the properties of the lead-submission workflow. *)

From Stdlib Require Import ZArith String Ascii List.
From stdpp Require Import gmap strings list fin_maps pretty.

Local Open Scope string_scope.
Local Open Scope list_scope.

(** ** JavaScript values used by the code *)

(** [!s] on a value of type [string | null]: [null] and the empty string are
    falsy, every other string is truthy. *)
Definition js_not (s : option string) : bool :=
  match s with
  | None => true
  | Some EmptyString => true
  | Some (String _ _) => false
  end.

(** [s.substr(from, len)] for non-negative arguments: JavaScript clamps at the
    end of the string, as [substring] does. *)
Definition substr (from len : nat) (s : string) : string := substring from len s.

(** The character [c] does not occur in [s]. *)
Fixpoint free_of (c : ascii) (s : string) : Prop :=
  match s with
  | EmptyString => True
  | String x s' => x <> c /\ free_of c s'
  end.

(** ** localStorage *)

(** The browser's [localStorage]: a finite map from keys to strings.
    [getItem] is lookup ([None] is JavaScript's [null]), [setItem] is insert,
    [removeItem] is delete. *)
Abbreviation Storage := (gmap string string).

Definition getItem (k : string) (ls : Storage) : option string := ls !! k.
Definition setItem (k v : string) (ls : Storage) : Storage := <[k := v]> ls.
Definition removeItem (k : string) (ls : Storage) : Storage := delete k ls.

(** ** lib/session.ts *)

Module Session.

Definition SESSION_KEY : string := "lead_capture_session_id".

(** The two readings of the outside world made by [generateSessionId]:
    [Date.now()] (an integer number of milliseconds) and the text of
    [Math.random().toString(36)], e.g. ["0.4fzyo82mvyr"]. *)
Record Draw := mkDraw {
  date_now : Z;
  random_base36 : string
}.

(** [`session_${Date.now()}_${Math.random().toString(36).substr(2, 9)}`];
    the template prints the clock reading, an integer, in decimal. *)
Definition generateSessionId (d : Draw) : string :=
  "session_" +:+ pretty (date_now d) +:+ "_" +:+ substr 2 9 (random_base36 d).

(** [getOrCreateSessionId]: returns the identifier and the storage after the
    call. *)
Definition getOrCreateSessionId (d : Draw) (ls : Storage) : string * Storage :=
  let sessionId := getItem SESSION_KEY ls in
  if js_not sessionId then
    let sessionId := generateSessionId d in
    let ls := setItem SESSION_KEY sessionId ls in
    (sessionId, ls)
  else
    (default "" sessionId, ls).

Definition clearSessionId (ls : Storage) : Storage :=
  removeItem SESSION_KEY ls.

End Session.

(** ** Data of the submission workflow *)

(** The form fields held by [useState({ name: '', email: '', industry: '' })]. *)
Record FormData := mkFormData {
  name : string;
  email : string;
  industry : string
}.

(** [ValidationError] of [lib/validation.ts]: a field name and a message. *)
Record ValidationError := mkValidationError {
  field : string;
  message : string
}.

(** The object built at lines 66-72 of the form and handed to [addLead]. *)
Record Lead := mkLead {
  lead_name : string;
  lead_email : string;
  lead_industry : string;
  submitted_at : string;
  session_id : string
}.

(** The two remote requests the handler issues through the Supabase client. *)
Inductive RemoteCall :=
  | InsertLead (name email industry session_id : string)
      (* supabase.from('leads').insert({...}).select().single() *)
  | InvokeFunction (fn name email industry : string).
      (* supabase.functions.invoke(fn, { body: {...} }) *)

(** What an awaited Supabase call resolves to: [{ data, error }], where
    [error] is [null] on success and an error object otherwise. The client
    reports a failed call through [error]; the promise itself is fulfilled.
    An object is truthy, so [if (error)] is the test [error <> None]. *)
Record Response := mkResponse {
  data : option string;
  error : option string
}.

Inductive LogLine :=
  | ConsoleError (msg detail : string)
  | ConsoleLog (msg : string).

(** ** lib/lead-store.ts *)

Record LeadStore := mkLeadStore {
  submitted : bool;
  sessionLeads : list Lead
}.

(** Modelled from the spec: [lib/lead-store.ts] is not among the sources. The
    store starts not submitted with an empty sequence of leads. *)
Definition initialLeadStore : LeadStore :=
  {| submitted := false; sessionLeads := [] |}.

(** Modelled from the spec: [lib/lead-store.ts] is not among the sources;
    [setSubmitted(bool)] sets the submitted flag. *)
Definition setSubmitted (b : bool) (s : LeadStore) : LeadStore :=
  {| submitted := b; sessionLeads := sessionLeads s |}.

(** Modelled from the spec: [lib/lead-store.ts] is not among the sources;
    [addLead(Lead)] appends the lead to the ordered sequence [sessionLeads]. *)
Definition addLead (l : Lead) (s : LeadStore) : LeadStore :=
  {| submitted := submitted s; sessionLeads := sessionLeads s ++ [l] |}.

(** ** The state the form component reads and writes *)

Record World := mkWorld {
  formData : FormData;                        (* useState, line 12 *)
  validationErrors : list ValidationError;    (* useState, line 13 *)
  isSubmitting : bool;                        (* useState, line 14 *)
  store : LeadStore;                          (* useLeadStore, line 15 *)
  localStorage : Storage;
  calls : list RemoteCall;                    (* requests issued, oldest first *)
  console : list LogLine                      (* lines printed, oldest first *)
}.

Definition setFormData (fd : FormData) (w : World) : World :=
  mkWorld fd (validationErrors w) (isSubmitting w) (store w)
          (localStorage w) (calls w) (console w).

Definition setValidationErrors (errs : list ValidationError) (w : World) : World :=
  mkWorld (formData w) errs (isSubmitting w) (store w)
          (localStorage w) (calls w) (console w).

Definition setIsSubmitting (b : bool) (w : World) : World :=
  mkWorld (formData w) (validationErrors w) b (store w)
          (localStorage w) (calls w) (console w).

Definition withStore (f : LeadStore -> LeadStore) (w : World) : World :=
  mkWorld (formData w) (validationErrors w) (isSubmitting w) (f (store w))
          (localStorage w) (calls w) (console w).

Definition withLocalStorage (ls : Storage) (w : World) : World :=
  mkWorld (formData w) (validationErrors w) (isSubmitting w) (store w)
          ls (calls w) (console w).

Definition request (c : RemoteCall) (w : World) : World :=
  mkWorld (formData w) (validationErrors w) (isSubmitting w) (store w)
          (localStorage w) (calls w ++ [c]) (console w).

Definition print (l : LogLine) (w : World) : World :=
  mkWorld (formData w) (validationErrors w) (isSubmitting w) (store w)
          (localStorage w) (calls w) (console w ++ [l]).

(** A handler suspended at an [await]. The closure keeps the [formData] of
    the render that created it and the [sessionId] read at line 31. *)
Inductive Suspended :=
  | AwaitInsert (fd : FormData) (sessionId : string)    (* line 34 *)
  | AwaitInvoke (fd : FormData) (sessionId : string).   (* line 51 *)

Definition emptyForm : FormData := {| name := ""; email := ""; industry := "" |}.

(** ** components/LeadCaptureForm.tsx *)

Section LeadCaptureForm.

(** [validateLeadForm] of [lib/validation.ts], which is not among the
    sources: the handler only tests whether its result is empty. *)
Variable validateLeadForm : FormData -> list ValidationError.

(** [validationErrors.find(error => error.field === field)?.message] *)
Definition getFieldError (w : World) (f : string) : option string :=
  message <$> find (fun e => bool_decide (field e = f)) (validationErrors w).

(** The [catch] block, lines 77-79. *)
Definition catch_block (err : string) (w : World) : World :=
  print (ConsoleError "Error submitting form:" err) w.

(** The [finally] block, lines 80-82. *)
Definition finally_block (w : World) : World :=
  setIsSubmitting false w.

(** [handleSubmit] from its entry to the first [await] (lines 22-43), or to
    its end when validation fails. *)
Definition handleSubmit (d : Session.Draw) (w : World) : option Suspended * World :=
  let fd := formData w in
  let errors := validateLeadForm fd in
  let w := setValidationErrors errors w in
  if Nat.eqb (length errors) 0 then
    let w := setIsSubmitting true w in
    let '(sessionId, ls) := Session.getOrCreateSessionId d (localStorage w) in
    let w := withLocalStorage ls w in
    let w := request (InsertLead (name fd) (email fd) (industry fd) sessionId) w in
    (Some (AwaitInsert fd sessionId), w)
  else
    (None, w).

(** [handleSubmit] from the point where an awaited call resolves to [r], up
    to the next [await] or the end. [iso_now] is what
    [new Date().toISOString()] reads at line 70. *)
Definition resume (k : Suspended) (r : Response) (iso_now : string) (w : World)
  : option Suspended * World :=
  match k with
  | AwaitInsert fd sessionId =>
      match error r with
      | Some dbError =>
          let w := print (ConsoleError "Error saving to database:" dbError) w in
          (* throw new Error('Failed to save lead data') *)
          let w := catch_block "Failed to save lead data" w in
          (None, finally_block w)
      | None =>
          let w := request (InvokeFunction "send-confirmation"
                              (name fd) (email fd) (industry fd)) w in
          (Some (AwaitInvoke fd sessionId), w)
      end
  | AwaitInvoke fd sessionId =>
      let w :=
        match error r with
        | Some emailError =>
            print (ConsoleError "Error sending confirmation email:" emailError) w
            (* Don't throw here as the lead was saved successfully *)
        | None =>
            print (ConsoleLog "Confirmation email sent successfully") w
        end in
      let lead :=
        {| lead_name := name fd;
           lead_email := email fd;
           lead_industry := industry fd;
           submitted_at := iso_now;
           session_id := sessionId |} in
      let w := withStore (addLead lead) w in
      let w := withStore (setSubmitted true) w in
      let w := setFormData emptyForm w in
      (None, finally_block w)
  end.

(** [handleInputChange], lines 86-91. The call sites pass the literals
    ['name'], ['email'] and ['industry']; another key would add a property
    that nothing reads. *)
Definition handleInputChange (f value : string) (w : World) : World :=
  let prev := formData w in
  let fd :=
    if bool_decide (f = "name") then
      {| name := value; email := email prev; industry := industry prev |}
    else if bool_decide (f = "email") then
      {| name := name prev; email := value; industry := industry prev |}
    else if bool_decide (f = "industry") then
      {| name := name prev; email := email prev; industry := value |}
    else prev in
  let w := setFormData fd w in
  if existsb (fun e => bool_decide (field e = f)) (validationErrors w) then
    setValidationErrors
      (filter (fun e => field e <> f) (validationErrors w)) w
  else w.

(** What the returned JSX shows of the state (lines 95-201): the three
    controls with their values and inline messages, the [disabled]
    attributes, and the label of the submit button. *)
Record View := mkView {
  name_value : string;
  name_message : option string;
  email_value : string;
  email_message : option string;
  industry_value : string;
  industry_message : option string;
  inputs_disabled : bool;
  button_disabled : bool;
  button_label : string
}.

(** [{getFieldError(f) && <p>...</p>}]: the paragraph is there when the
    message is truthy. *)
Definition inline_message (w : World) (f : string) : option string :=
  if js_not (getFieldError w f) then None else getFieldError w f.

Definition render (w : World) : View :=
  {| name_value := name (formData w);
     name_message := inline_message w "name";
     email_value := email (formData w);
     email_message := inline_message w "email";
     industry_value := industry (formData w);
     industry_message := inline_message w "industry";
     inputs_disabled := isSubmitting w;
     button_disabled := isSubmitting w;
     button_label :=
       if isSubmitting w then "Submitting..." else "Get Early Access" |}.

(** Every error text the view shows. The JSX has no other place for one
    (line 106: error handling removed). *)
Definition shown_errors (v : View) : list string :=
  omap id [name_message v; email_message v; industry_message v].

(** *** One submission run to completion *)

(** The readings and responses one submission consumes. *)
Record Env := mkEnv {
  draw : Session.Draw;
  dbResponse : Response;       (* what the insert resolves to *)
  fnResponse : Response;       (* what the function invocation resolves to *)
  iso_now : string             (* new Date().toISOString() *)
}.

(** [handleSubmit] run from the submit event until the promise it returns
    settles; no other event is handled in between. *)
Definition submit (e : Env) (w : World) : World :=
  match handleSubmit (draw e) w with
  | (None, w) => w
  | (Some k, w) =>
      match resume k (dbResponse e) (iso_now e) w with
      | (None, w) => w
      | (Some k, w) => snd (resume k (fnResponse e) (iso_now e) w)
      end
  end.

(** *** The page as a transition system *)

(** The component state together with the handlers suspended at an
    [await]. *)
Record Page := mkPage {
  world : World;
  inflight : list Suspended
}.

Inductive UIEvent :=
  | Submit (d : Session.Draw)
      (* the form is submitted through its submit button *)
  | Change (f value : string)
      (* one of the three controls changes *)
  | Settle (i : nat) (r : Response) (iso_now : string).
      (* the call awaited by the i-th suspended handler resolves *)

(** A disabled control fires no event, so the browser hands [Submit] and
    [Change] to the handlers only when the [disabled] attribute is off. *)
Definition dispatch (ev : UIEvent) (p : Page) : Page :=
  match ev with
  | Submit d =>
      if button_disabled (render (world p)) then p
      else
        let '(k, w) := handleSubmit d (world p) in
        {| world := w; inflight := inflight p ++ option_list k |}
  | Change f value =>
      if inputs_disabled (render (world p)) then p
      else {| world := handleInputChange f value (world p);
              inflight := inflight p |}
  | Settle i r iso_now =>
      match inflight p !! i with
      | None => p
      | Some k =>
          let '(k', w) := resume k r iso_now (world p) in
          {| world := w;
             inflight := match k' with
                         | Some k' => <[i := k']> (inflight p)
                         | None => delete i (inflight p)
                         end |}
      end
  end.

(** The page right after the component mounts, for a given [localStorage]. *)
Definition initialPage (ls : Storage) : Page :=
  {| world := mkWorld emptyForm [] false initialLeadStore ls [] [];
     inflight := [] |}.

(** The pages that events can lead to. *)
Inductive reachable : Page -> Prop :=
  | reachable_init ls : reachable (initialPage ls)
  | reachable_step p ev : reachable p -> reachable (dispatch ev p).

(** At most one handler is suspended, and [isSubmitting] says whether one
    is. *)
Definition guard_inv (p : Page) : Prop :=
  (inflight p = [] /\ isSubmitting (world p) = false) \/
  (exists k, inflight p = [k] /\ isSubmitting (world p) = true).

Definition suspended_session (k : Suspended) : string :=
  match k with
  | AwaitInsert _ sessionId => sessionId
  | AwaitInvoke _ sessionId => sessionId
  end.

(** Every lead in the store, and every handler still suspended, carries a
    session identifier that is not empty. *)
Definition session_inv (p : Page) : Prop :=
  Forall (fun l => session_id l <> "") (sessionLeads (store (world p))) /\
  Forall (fun k => suspended_session k <> "") (inflight p).

End LeadCaptureForm.

(** ** lib/validation.ts *)

Module Validation.

(** The values of the [SelectItem]s, lines 161-168 of the form. *)
Definition INDUSTRIES : list string :=
  ["technology"; "healthcare"; "finance"; "education";
   "retail"; "manufacturing"; "consulting"; "other"].

Definition is_space (c : ascii) : bool :=
  bool_decide (c ∈ [" "%char; "009"%char; "010"%char; "013"%char]).

(** [s.trim() === ''] *)
Definition blank (s : string) : bool :=
  forallb is_space (list_ascii_of_string s).

(** The characters before the first [c], and the rest from that [c] on. *)
Fixpoint until_char (c : ascii) (cs : list ascii) : list ascii * list ascii :=
  match cs with
  | [] => ([], [])
  | x :: tl =>
      if bool_decide (x = c) then ([], cs)
      else let '(a, b) := until_char c tl in (x :: a, b)
  end.

(** The shape [local@domain.tld]: no white space, one ["@"], something
    before it, and after it a ["."] with something on both sides. *)
Definition email_shaped (s : string) : bool :=
  let cs := list_ascii_of_string s in
  forallb (fun c => negb (is_space c)) cs &&
  match until_char "@" cs with
  | (_ :: _, _ :: _ :: rest) =>
      bool_decide ("@"%char ∉ rest) && bool_decide ("."%char ∈ removelast rest)
  | _ => false
  end.

(** Modelled from the spec: [lib/validation.ts] is not among the sources.
    One validator that follows the rules of the Form Validator: [name] is
    required (empty after trimming), [email] is required and must have the
    shape of an address, [industry] must be one of the listed categories. *)
Definition validateLeadForm (fd : FormData) : list ValidationError :=
  (if blank (name fd) then [mkValidationError "name" "required"] else []) ++
  (if bool_decide (email fd = "") then [mkValidationError "email" "required"]
   else if email_shaped (email fd) then []
   else [mkValidationError "email" "format"]) ++
  (if bool_decide (industry fd ∈ INDUSTRIES) then []
   else [mkValidationError "industry" "required"]).

End Validation.

(** ** supabase/migrations/20250710135108-...-9bd839f3be33.sql *)

Module Migration.

(** A cell of a [TEXT] column. *)
Inductive value :=
  | VNull
  | VText (s : string).

Record Column := mkColumn {
  not_null : bool;
  col_default : option string
}.

(** [public.leads]: its columns and its rows, each row a map from column
    names to cells. *)
Record Table := mkTable {
  columns : gmap string Column;
  rows : list (gmap string value)
}.

(** What a row holds in a column; a row that stores nothing there reads as
    [NULL]. *)
Definition cell (c : string) (r : gmap string value) : value :=
  default VNull (r !! c).

Definition is_null (v : value) : bool :=
  match v with VNull => true | VText _ => false end.

Inductive Statement :=
  | AddColumn (c : string)
      (* ALTER TABLE public.leads ADD COLUMN c TEXT *)
  | UpdateWhereNull (c v : string)
      (* UPDATE public.leads SET c = v WHERE c IS NULL *)
  | SetNotNull (c : string)
      (* ALTER TABLE public.leads ALTER COLUMN c SET NOT NULL *)
  | SetDefault (c v : string).
      (* ALTER TABLE public.leads ALTER COLUMN c SET DEFAULT v *)

Inductive SqlError :=
  | DuplicateColumn (c : string)
  | UndefinedColumn (c : string)
  | NotNullViolation (c : string).

(** One statement. A new column has no constraint and no default, and the
    rows already there read [NULL] in it; [SET NOT NULL] is refused while a
    row still holds [NULL]. *)
Definition exec (s : Statement) (t : Table) : SqlError + Table :=
  match s with
  | AddColumn c =>
      match columns t !! c with
      | Some _ => inl (DuplicateColumn c)
      | None =>
          inr {| columns := <[c := mkColumn false None]> (columns t);
                 rows := (fun r => <[c := VNull]> r) <$> rows t |}
      end
  | UpdateWhereNull c v =>
      match columns t !! c with
      | None => inl (UndefinedColumn c)
      | Some _ =>
          inr {| columns := columns t;
                 rows := (fun r => if is_null (cell c r)
                                   then <[c := VText v]> r else r) <$> rows t |}
      end
  | SetNotNull c =>
      match columns t !! c with
      | None => inl (UndefinedColumn c)
      | Some col =>
          if existsb (fun r => is_null (cell c r)) (rows t)
          then inl (NotNullViolation c)
          else inr {| columns := <[c := mkColumn true (col_default col)]> (columns t);
                      rows := rows t |}
      end
  | SetDefault c v =>
      match columns t !! c with
      | None => inl (UndefinedColumn c)
      | Some col =>
          inr {| columns := <[c := mkColumn (not_null col) (Some v)]> (columns t);
                 rows := rows t |}
      end
  end.

(** The statements of a file, in order; the first error stops the run. *)
Fixpoint run (ss : list Statement) (t : Table) : SqlError + Table :=
  match ss with
  | [] => inr t
  | s :: ss =>
      match exec s t with
      | inl e => inl e
      | inr t => run ss t
      end
  end.

(** The migration file, statement by statement. *)
Definition migration : list Statement :=
  [ AddColumn "industry";
    UpdateWhereNull "industry" "Other";
    SetNotNull "industry";
    SetDefault "industry" "Other" ].

(** The shortcut the migration avoids: the constraint before the backfill. *)
Definition constraint_first : list Statement :=
  [ AddColumn "industry";
    SetNotNull "industry";
    UpdateWhereNull "industry" "Other";
    SetDefault "industry" "Other" ].

End Migration.

(** ** Quantities the properties speak of *)

(** The form a suspended handler closed over. *)
Definition suspended_form (k : Suspended) : FormData :=
  match k with
  | AwaitInsert fd _ => fd
  | AwaitInvoke fd _ => fd
  end.

(** The three form fields a lead was built from (lines 67-69). *)
Definition lead_form (l : Lead) : FormData :=
  {| name := lead_name l; email := lead_email l; industry := lead_industry l |}.

Definition is_insert (c : RemoteCall) : bool :=
  match c with InsertLead _ _ _ _ => true | InvokeFunction _ _ _ _ => false end.

Definition is_invoke (c : RemoteCall) : bool :=
  match c with InsertLead _ _ _ _ => false | InvokeFunction _ _ _ _ => true end.

Definition awaits_insert (k : Suspended) : bool :=
  match k with AwaitInsert _ _ => true | AwaitInvoke _ _ => false end.

Definition awaits_invoke (k : Suspended) : bool :=
  match k with AwaitInsert _ _ => false | AwaitInvoke _ _ => true end.

(** How many elements of [l] satisfy [f]. *)
Definition count {A : Type} (f : A -> bool) (l : list A) : nat :=
  length (List.filter f l).

(** The bookkeeping between the lead store, the suspended handlers and the
    requests issued: a lead or a handler awaiting the invocation for every
    invocation, and an insert for each of those and for each handler awaiting
    the insert. *)
Definition accounting_inv (p : Page) : Prop :=
  length (sessionLeads (store (world p))) + count awaits_invoke (inflight p)
    = count is_invoke (calls (world p)) /\
  count is_invoke (calls (world p)) + count awaits_insert (inflight p)
    <= count is_insert (calls (world p)).

(** ** Concrete inputs *)

Module Scenario.

Definition ana : FormData := mkFormData "Ana" "ana@x.com" "technology".
Definition bad : FormData := mkFormData "" "bad" "".

(** A freshly mounted form into which [fd] has been typed. *)
Definition typed (fd : FormData) : World :=
  mkWorld fd [] false initialLeadStore ∅ [] [].

Definition readings : Session.Draw :=
  Session.mkDraw 1752155468000 "0.4fzyo82mvyr".

Definition ok : Response := mkResponse (Some "{}") None.
Definition failed (msg : string) : Response := mkResponse None (Some msg).

Definition env (db fn : Response) : Env :=
  mkEnv readings db fn "2025-07-10T13:51:08.000Z".

(** The form filled in field by field and then submitted; the insert has
    not resolved yet. *)
Definition awaiting_insert : Page :=
  dispatch Validation.validateLeadForm (Submit readings)
    (dispatch Validation.validateLeadForm (Change "industry" "technology")
       (dispatch Validation.validateLeadForm (Change "email" "ana@x.com")
          (dispatch Validation.validateLeadForm (Change "name" "Ana")
             (initialPage ∅)))).

(** [public.leads] with two rows, before the migration. *)
Definition leads_before : Migration.Table :=
  Migration.mkTable
    {[ "name" := Migration.mkColumn true None;
       "email" := Migration.mkColumn true None ]}
    [ {[ "name" := Migration.VText "Ana"; "email" := Migration.VText "ana@x.com" ]};
      {[ "name" := Migration.VText "Bo"; "email" := Migration.VText "bo@y.org" ]} ].

(** The same page once the insert has succeeded and the invocation has
    failed: the lead is recorded. *)
Definition recorded : Page :=
  dispatch Validation.validateLeadForm
    (Settle 0 (failed "smtp down") "2025-07-10T13:51:09.000Z")
    (dispatch Validation.validateLeadForm
       (Settle 0 ok "2025-07-10T13:51:08.500Z") awaiting_insert).

(** A form showing two messages for [email] and one for [industry]. *)
Definition with_messages : World :=
  setValidationErrors
    [mkValidationError "email" "required";
     mkValidationError "industry" "required";
     mkValidationError "email" "format"] (typed bad).

(** [public.leads] once the migration has run: the column is there. *)
Definition leads_after : Migration.Table :=
  Migration.mkTable
    {[ "name" := Migration.mkColumn true None;
       "industry" := Migration.mkColumn true (Some "Other") ]}
    [ {[ "name" := Migration.VText "Ana"; "industry" := Migration.VText "Other" ]} ].

(** [public.leads] before the migration, without a row. *)
Definition no_leads : Migration.Table :=
  Migration.mkTable {[ "name" := Migration.mkColumn true None ]} [].

(** A table in which [industry] is there, nullable, with one row filled in
    and one row [NULL]. *)
Definition leads_half_filled : Migration.Table :=
  Migration.mkTable
    {[ "name" := Migration.mkColumn true None;
       "industry" := Migration.mkColumn false None ]}
    [ {[ "name" := Migration.VText "Ana"; "industry" := Migration.VText "finance" ]};
      {[ "name" := Migration.VText "Bo"; "industry" := Migration.VNull ]} ].

End Scenario.

(** * Properties *)

(** ** Session identity *)

Section SessionFacts.
Import Session.

Lemma append_split_at (c : ascii) (a a' s s' : string) :
  free_of c a -> free_of c a' ->
  a +:+ String c s = a' +:+ String c s' -> a = a' /\ s = s'.
Proof.
  revert a'. induction a as [|x a IH]; intros [|y a']; simpl.
  - intros _ _ [= ->]. done.
  - intros _ [Hy _] [= E _]. by destruct Hy.
  - intros [Hx _] _ [= E _]. by destruct Hx.
  - intros [_ Ha] [_ Ha'] [= -> E].
    destruct (IH a' Ha Ha' E) as [-> ->]. done.
Qed.

Lemma pretty_N_go_free (x : N) (s : string) :
  free_of "_" s -> free_of "_" (pretty_N_go x s).
Proof.
  revert s. induction (N.lt_wf_0 x) as [x _ IH]; intros s Hs.
  assert (x = 0 \/ 0 < x)%N as [->|Hpos] by lia.
  - by rewrite pretty_N_go_0.
  - rewrite pretty_N_go_step by done. apply IH.
    + by apply N.div_lt.
    + simpl. split; [|done].
      unfold pretty_N_char. by repeat case_match.
Qed.

Lemma pretty_N_free (x : N) : free_of "_" (pretty x).
Proof.
  unfold pretty, pretty_N. case_decide.
  - simpl. done.
  - by apply pretty_N_go_free.
Qed.

(** The decimal text of [Date.now()] has no underscore in it. *)
Lemma pretty_Z_free (z : Z) : free_of "_" (pretty z).
Proof.
  destruct z as [|p|p]; unfold pretty, pretty_Z.
  - simpl. done.
  - apply pretty_N_free.
  - simpl. split; [done|]. apply pretty_N_free.
Qed.

Lemma generateSessionId_nonempty (d : Draw) : generateSessionId d <> "".
Proof. unfold generateSessionId. simpl. discriminate. Qed.

(** Two generated identifiers are equal exactly when the clock reading and
    the nine characters kept of the random text are. *)
Lemma generateSessionId_eq_iff (d d0 : Draw) :
  generateSessionId d = generateSessionId d0 <->
  date_now d = date_now d0 /\
  substr 2 9 (random_base36 d) = substr 2 9 (random_base36 d0).
Proof.
  unfold generateSessionId. split.
  - simpl. intros [= E].
    apply append_split_at in E as [Hn Hs]; auto using pretty_Z_free.
    split; [by apply (inj pretty)|done].
  - intros [-> ->]. done.
Qed.

Lemma getOrCreateSessionId_absent (d : Draw) (ls : Storage) :
  js_not (ls !! SESSION_KEY) = true ->
  getOrCreateSessionId d ls =
    (generateSessionId d, <[SESSION_KEY := generateSessionId d]> ls).
Proof. unfold getOrCreateSessionId, getItem, setItem. by intros ->. Qed.

Lemma getOrCreateSessionId_present (d : Draw) (ls : Storage) (s : string) :
  ls !! SESSION_KEY = Some s -> s <> "" ->
  getOrCreateSessionId d ls = (s, ls).
Proof.
  unfold getOrCreateSessionId, getItem. intros -> Hs.
  destruct s; [done|]. done.
Qed.

(** Whatever the storage held, after the call it holds the identifier that
    the call returned, and that identifier is not empty. *)
Lemma getOrCreateSessionId_stored (d : Draw) (ls : Storage) :
  (getOrCreateSessionId d ls).2 !! SESSION_KEY = Some (getOrCreateSessionId d ls).1
  /\ (getOrCreateSessionId d ls).1 <> "".
Proof.
  destruct (js_not (ls !! SESSION_KEY)) eqn:E.
  - rewrite getOrCreateSessionId_absent by done. simpl.
    split; [apply lookup_insert_eq|apply generateSessionId_nonempty].
  - destruct (ls !! SESSION_KEY) as [[|c s]|] eqn:L; try done.
    rewrite (getOrCreateSessionId_present d ls (String c s)) by done.
    done.
Qed.

(** C7: [getOrCreateSessionId] is idempotent. For every storage state and
    whatever the clock and the random source read, a second call right after
    a first one (no [clearSessionId] in between) returns the identifier the
    first call returned and leaves the storage as the first call left it;
    and when the first call returns, the storage already holds that
    identifier under the session key. *)
Theorem getOrCreateSessionId_idempotent (d1 d2 : Draw) (ls : Storage) :
  let first := getOrCreateSessionId d1 ls in
  let second := getOrCreateSessionId d2 first.2 in
  second.1 = first.1 /\
  first.2 !! SESSION_KEY = Some first.1 /\
  second.2 = first.2.
Proof.
  intros first second.
  destruct (getOrCreateSessionId_stored d1 ls) as [Hst Hne].
  fold first in Hst, Hne.
  unfold second.
  rewrite (getOrCreateSessionId_present d2 _ _ Hst Hne). done.
Qed.

(** C8: after [clearSessionId] the session key holds nothing, and the next
    [getOrCreateSessionId] generates an identifier from the clock and the
    random source, returns it and stores it. Against an identifier
    generated earlier from the readings [d0], the new one differs exactly
    when the clock reading or the nine random characters differ: the
    freshness rests on the readings, on nothing else. *)
Theorem clearSessionId_then_fresh (d0 d : Draw) (ls : Storage) :
  let cleared := clearSessionId ls in
  let next := getOrCreateSessionId d cleared in
  cleared !! SESSION_KEY = None /\
  next.1 = generateSessionId d /\
  next.2 !! SESSION_KEY = Some (generateSessionId d) /\
  (next.1 <> generateSessionId d0 <->
     date_now d <> date_now d0 \/
     substr 2 9 (random_base36 d) <> substr 2 9 (random_base36 d0)).
Proof.
  intros cleared next.
  assert (Hc : cleared !! SESSION_KEY = None)
    by apply lookup_delete_eq.
  assert (Hn : next = (generateSessionId d,
                       <[SESSION_KEY := generateSessionId d]> cleared)).
  { apply getOrCreateSessionId_absent. by rewrite Hc. }
  rewrite Hn. simpl. repeat split; [done|apply lookup_insert_eq|..].
  - intros Hne.
    destruct (decide (date_now d = date_now d0)) as [E1|]; [|by left].
    destruct (decide (substr 2 9 (random_base36 d)
                      = substr 2 9 (random_base36 d0))) as [E2|]; [|by right].
    destruct Hne. by apply generateSessionId_eq_iff.
  - intros Hor E. apply generateSessionId_eq_iff in E as [E1 E2].
    destruct Hor; done.
Qed.

End SessionFacts.

(** ** Submission workflow *)

Section SubmissionFacts.
Import Session.

Variable validateLeadForm : FormData -> list ValidationError.

Lemma handleSubmit_invalid (d : Draw) (w : World) :
  validateLeadForm (formData w) <> [] ->
  handleSubmit validateLeadForm d w =
    (None, setValidationErrors (validateLeadForm (formData w)) w).
Proof.
  intros Hne. unfold handleSubmit.
  destruct (validateLeadForm (formData w)); [done|]. done.
Qed.

Lemma handleSubmit_valid (d : Draw) (w : World) :
  validateLeadForm (formData w) = [] ->
  let fd := formData w in
  let got := getOrCreateSessionId d (localStorage w) in
  handleSubmit validateLeadForm d w =
    (Some (AwaitInsert fd got.1),
     request (InsertLead (name fd) (email fd) (industry fd) got.1)
       (withLocalStorage got.2
          (setIsSubmitting true (setValidationErrors [] w)))).
Proof.
  intros Hv fd got. unfold handleSubmit.
  rewrite Hv. simpl. fold got. by destruct got.
Qed.

(** C1: when the insert resolves with an error, the only request issued is
    the insert itself (the notification function is not invoked), the lead
    store is left as it was (no lead appended, [submitted] not touched, so
    it stays false where it was false), and the form fields keep their
    values. *)
Theorem persistence_failure_commits_nothing
    (e : Env) (w : World) (dbError : string) :
  validateLeadForm (formData w) = [] ->
  error (dbResponse e) = Some dbError ->
  let w' := submit validateLeadForm e w in
  let fd := formData w in
  let sessionId := (getOrCreateSessionId (draw e) (localStorage w)).1 in
  calls w' = calls w ++ [InsertLead (name fd) (email fd) (industry fd) sessionId] /\
  sessionLeads (store w') = sessionLeads (store w) /\
  submitted (store w') = submitted (store w) /\
  formData w' = formData w.
Proof.
  intros Hv Hdb w' fd sessionId. subst w'. unfold submit.
  rewrite (handleSubmit_valid _ _ Hv). simpl. rewrite Hdb. simpl. done.
Qed.

(** C2: when the insert succeeds and the function invocation resolves with
    an error, the submission still succeeds: the lead is appended to the
    store, [submitted] is true, the form fields are reset, and the only
    trace of the notification failure is one [console.error] line. *)
Theorem notification_failure_is_not_fatal
    (e : Env) (w : World) (emailError : string) :
  validateLeadForm (formData w) = [] ->
  error (dbResponse e) = None ->
  error (fnResponse e) = Some emailError ->
  let w' := submit validateLeadForm e w in
  let fd := formData w in
  let sessionId := (getOrCreateSessionId (draw e) (localStorage w)).1 in
  sessionLeads (store w') =
    sessionLeads (store w) ++
    [mkLead (name fd) (email fd) (industry fd) (iso_now e) sessionId] /\
  submitted (store w') = true /\
  formData w' = emptyForm /\
  isSubmitting w' = false /\
  validationErrors w' = [] /\
  console w' =
    console w ++ [ConsoleError "Error sending confirmation email:" emailError].
Proof.
  intros Hv Hdb Hfn w' fd sessionId. subst w'. unfold submit.
  rewrite (handleSubmit_valid _ _ Hv). simpl. rewrite Hdb. simpl.
  rewrite Hfn. simpl. done.
Qed.

(** C3: with valid fields and both remote calls succeeding, the store gains
    one lead whose [session_id] is what [getOrCreateSessionId] returned for
    this submission, which is also what any later call returns from the
    storage the submission leaves; [submitted] is true and the three form
    fields are the empty string. *)
Theorem successful_submission_records_lead (e : Env) (w : World) :
  validateLeadForm (formData w) = [] ->
  error (dbResponse e) = None ->
  error (fnResponse e) = None ->
  let w' := submit validateLeadForm e w in
  let fd := formData w in
  let sessionId := (getOrCreateSessionId (draw e) (localStorage w)).1 in
  sessionLeads (store w') =
    sessionLeads (store w) ++
    [mkLead (name fd) (email fd) (industry fd) (iso_now e) sessionId] /\
  (forall d, (getOrCreateSessionId d (localStorage w')).1 = sessionId) /\
  submitted (store w') = true /\
  name (formData w') = "" /\
  email (formData w') = "" /\
  industry (formData w') = "".
Proof.
  intros Hv Hdb Hfn w' fd sessionId. subst w'. unfold submit.
  rewrite (handleSubmit_valid _ _ Hv). simpl. rewrite Hdb. simpl.
  rewrite Hfn. simpl. repeat split.
  intros d.
  destruct (getOrCreateSessionId_stored (draw e) (localStorage w)) as [Hst Hne].
  by rewrite (getOrCreateSessionId_present d _ _ Hst Hne).
Qed.

(** C4: when validation returns errors, the handler only records them: the
    world after the submission is the world before with [validationErrors]
    replaced. Nothing is left awaiting, no request is issued, [isSubmitting]
    is not touched and the lead store is as it was. *)
Theorem invalid_submission_makes_no_call (e : Env) (w : World) :
  validateLeadForm (formData w) <> [] ->
  let w' := submit validateLeadForm e w in
  (handleSubmit validateLeadForm (draw e) w).1 = None /\
  w' = setValidationErrors (validateLeadForm (formData w)) w /\
  calls w' = calls w /\
  isSubmitting w' = isSubmitting w /\
  store w' = store w.
Proof.
  intros Hne w'. subst w'. unfold submit.
  rewrite (handleSubmit_invalid _ _ Hne). done.
Qed.

(** C5, as the code has it: when the insert resolves with an error, the
    failure goes to the console only (two [console.error] lines). The view
    shows no error text: it is the view of the form as submitted, with no
    inline message and the controls enabled again, and the fields keep
    their values for a retry. *)
Theorem persistence_failure_is_only_logged
    (e : Env) (w : World) (dbError : string) :
  validateLeadForm (formData w) = [] ->
  error (dbResponse e) = Some dbError ->
  let w' := submit validateLeadForm e w in
  console w' =
    console w ++ [ConsoleError "Error saving to database:" dbError;
                  ConsoleError "Error submitting form:" "Failed to save lead data"] /\
  shown_errors (render w') = [] /\
  render w' = render (setIsSubmitting false (setValidationErrors [] w)) /\
  formData w' = formData w.
Proof.
  intros Hv Hdb w'. subst w'. unfold submit.
  rewrite (handleSubmit_valid _ _ Hv). simpl. rewrite Hdb. simpl.
  rewrite <- app_assoc. done.
Qed.

(** *** The in-flight flag *)

Lemma handleInputChange_isSubmitting (f v : string) (w : World) :
  isSubmitting (handleInputChange f v w) = isSubmitting w.
Proof. unfold handleInputChange. by case_match. Qed.

Lemma dispatch_guard_inv (ev : UIEvent) (p : Page) :
  guard_inv p -> guard_inv (dispatch validateLeadForm ev p).
Proof.
  intros Hp. destruct ev as [d|f v|i r t]; simpl.
  - destruct (isSubmitting (world p)) eqn:Hs; [done|].
    destruct Hp as [[Hin _]|(k & _ & Hk)]; [|congruence].
    destruct (decide (validateLeadForm (formData (world p)) = [])) as [Hv|Hv].
    + rewrite (handleSubmit_valid _ _ Hv). right. rewrite Hin. simpl. eauto.
    + rewrite (handleSubmit_invalid _ _ Hv). left. rewrite Hin. simpl. done.
  - destruct (isSubmitting (world p)) eqn:Hs; [done|].
    destruct Hp as [[Hin _]|(k & _ & Hk)]; [|congruence].
    left. simpl. by rewrite handleInputChange_isSubmitting.
  - destruct Hp as [[Hin Hs]|(k & Hin & Hs)]; rewrite Hin.
    + simpl. left. done.
    + destruct i as [|i]; simpl; [|right; eauto].
      destruct k as [fd sid|fd sid]; simpl.
      * destruct (error r); simpl; [by left|]. right. eauto.
      * left. done.
Qed.

Lemma reachable_guard_inv (p : Page) :
  reachable validateLeadForm p -> guard_inv p.
Proof.
  induction 1 as [ls|p ev _ IH].
  - left. done.
  - by apply dispatch_guard_inv.
Qed.

(** C6: on every page that events can lead to, a submission is in flight
    exactly when [isSubmitting] is true; while one is, the submit button is
    disabled and a further submit request changes nothing (no state change,
    no request, no second handler); and whenever a settled call leaves no
    submission in flight, [isSubmitting] is false again. An attempt ends
    with the flag off on each path: the insert failing, or the invocation
    settling either way. *)
Theorem in_flight_flag_guards_reentry (p : Page) :
  reachable validateLeadForm p ->
  (inflight p <> [] <-> isSubmitting (world p) = true) /\
  (inflight p <> [] ->
     button_disabled (render (world p)) = true /\
     forall d, dispatch validateLeadForm (Submit d) p = p) /\
  (forall i r t,
     inflight (dispatch validateLeadForm (Settle i r t) p) = [] ->
     isSubmitting (world (dispatch validateLeadForm (Settle i r t) p)) = false) /\
  (forall k r t w,
     (resume k r t w).1 = None -> isSubmitting (resume k r t w).2 = false) /\
  (forall fd sid r t w,
     error r <> None -> (resume (AwaitInsert fd sid) r t w).1 = None) /\
  (forall fd sid r t w, (resume (AwaitInvoke fd sid) r t w).1 = None).
Proof.
  intros Hr. pose proof (reachable_guard_inv p Hr) as Hp.
  assert (Hiff : inflight p <> [] <-> isSubmitting (world p) = true).
  { destruct Hp as [[-> ->]|(k & -> & ->)]; split; done. }
  split; [done|]. split; [|split; [|split; [|split]]].
  - intros Hin. apply Hiff in Hin. simpl. by rewrite Hin.
  - intros i r t Hnil.
    destruct (reachable_guard_inv _ (reachable_step _ p (Settle i r t) Hr))
      as [[_ Hs]|(k & Hk & _)]; [done|congruence].
  - intros [fd sid|fd sid] r t w; simpl; [|done].
    by destruct (error r).
  - intros fd sid r t w Hne. simpl. by destruct (error r).
  - done.
Qed.

(** What one submission does to the lead store: nothing, or one lead more,
    carrying a session identifier that is not empty. *)
Lemma submit_store (e : Env) (w : World) :
  store (submit validateLeadForm e w) = store w \/
  exists l,
    sessionLeads (store (submit validateLeadForm e w)) = sessionLeads (store w) ++ [l] /\
    session_id l = (getOrCreateSessionId (draw e) (localStorage w)).1 /\
    session_id l <> "".
Proof.
  destruct (decide (validateLeadForm (formData w) = [])) as [Hv|Hv].
  - unfold submit. rewrite (handleSubmit_valid _ _ Hv). simpl.
    destruct (error (dbResponse e)); simpl; [by left|].
    right. eexists. split; [|split].
    + by destruct (error (fnResponse e)).
    + done.
    + apply getOrCreateSessionId_stored.
  - left. unfold submit. by rewrite (handleSubmit_invalid _ _ Hv).
Qed.

(** The handler has no test of [isSubmitting] of its own: called while the
    flag is on, it validates and issues the insert all the same. The guard
    is the [disabled] attribute alone. *)
Remark handleSubmit_does_not_read_the_flag (d : Draw) (w : World) :
  validateLeadForm (formData w) = [] ->
  handleSubmit validateLeadForm d (setIsSubmitting true w)
  = handleSubmit validateLeadForm d w.
Proof.
  intros Hv.
  rewrite (handleSubmit_valid d w Hv).
  rewrite (handleSubmit_valid d (setIsSubmitting true w) Hv). done.
Qed.

(** [submit] is the page handling the submit event and then the two
    settlements, with nothing in between. *)
Lemma submit_as_events (e : Env) (w : World) :
  isSubmitting w = false ->
  world (dispatch validateLeadForm (Settle 0 (fnResponse e) (iso_now e))
           (dispatch validateLeadForm (Settle 0 (dbResponse e) (iso_now e))
              (dispatch validateLeadForm (Submit (draw e))
                 {| world := w; inflight := [] |})))
  = submit validateLeadForm e w.
Proof.
  intros Hs. unfold submit. cbn [dispatch world inflight render button_disabled].
  rewrite Hs.
  destruct (decide (validateLeadForm (formData w) = [])) as [Hv|Hv].
  - rewrite (handleSubmit_valid _ _ Hv). simpl.
    destruct (error (dbResponse e)); simpl; [done|].
    by destruct (error (fnResponse e)).
  - rewrite (handleSubmit_invalid _ _ Hv). done.
Qed.

(** *** Session identifiers of the leads *)

Lemma handleInputChange_store (f v : string) (w : World) :
  store (handleInputChange f v w) = store w.
Proof. unfold handleInputChange. by case_match. Qed.

Lemma dispatch_session_inv (ev : UIEvent) (p : Page) :
  session_inv p -> session_inv (dispatch validateLeadForm ev p).
Proof.
  intros [Hl Hk]. destruct ev as [d|f v|i r t]; simpl.
  - destruct (isSubmitting (world p)); [done|].
    destruct (decide (validateLeadForm (formData (world p)) = [])) as [Hv|Hv].
    + rewrite (handleSubmit_valid _ _ Hv). split; simpl; [done|].
      apply Forall_app. split; [done|].
      apply Forall_singleton. simpl. apply getOrCreateSessionId_stored.
    + rewrite (handleSubmit_invalid _ _ Hv). split; simpl; [done|].
      by rewrite app_nil_r.
  - destruct (isSubmitting (world p)); [done|].
    split; simpl; [|done]. by rewrite handleInputChange_store.
  - destruct (inflight p !! i) as [k|] eqn:Hi; [|done].
    pose proof (Forall_lookup_1 _ _ _ _ Hk Hi) as Hsid.
    destruct k as [fd sid|fd sid]; simpl in *.
    + destruct (error r); split; simpl; try done.
      * by apply Forall_delete.
      * apply Forall_insert; [done|]. simpl. done.
    + split; simpl; [|by apply Forall_delete].
      apply Forall_app. split; [|by apply Forall_singleton].
      by destruct (error r).
Qed.

Lemma reachable_session_inv (p : Page) :
  reachable validateLeadForm p -> session_inv p.
Proof.
  induction 1 as [ls|p ev _ IH].
  - split; simpl; constructor.
  - by apply dispatch_session_inv.
Qed.

End SubmissionFacts.

(** C9: for every storage state [getOrCreateSessionId] returns a string that
    is not empty; a stored empty string counts as absent, so a fresh
    identifier is generated over it; a submission either leaves the lead
    store alone or appends one lead whose [session_id] is that non-empty
    string; and on every page that events can lead to, every lead in the
    store has a non-empty [session_id]. *)
Theorem session_id_is_never_empty :
  (forall d ls, (Session.getOrCreateSessionId d ls).1 <> "") /\
  (forall d (ls : Storage),
     (Session.getOrCreateSessionId d (<[Session.SESSION_KEY := ""]> ls)).1
     = Session.generateSessionId d) /\
  (forall validateLeadForm e w,
     store (submit validateLeadForm e w) = store w \/
     exists l,
       sessionLeads (store (submit validateLeadForm e w))
         = sessionLeads (store w) ++ [l] /\
       session_id l = (Session.getOrCreateSessionId (draw e) (localStorage w)).1 /\
       session_id l <> "") /\
  (forall validateLeadForm p,
     reachable validateLeadForm p ->
     Forall (fun l => session_id l <> "") (sessionLeads (store (world p)))).
Proof.
  split; [|split; [|split]].
  - intros d ls. apply getOrCreateSessionId_stored.
  - intros d ls. rewrite getOrCreateSessionId_absent; [done|].
    by rewrite lookup_insert_eq.
  - apply submit_store.
  - intros v p Hr. by apply (reachable_session_inv v p Hr).
Qed.

(** *** The workflow on concrete submissions *)

Section Runs.
Import Scenario.

Lemma persistence_failure_commits_nothing_run :
  calls (submit Validation.validateLeadForm (env (failed "timeout") ok) (typed ana))
    = [InsertLead "Ana" "ana@x.com" "technology" "session_1752155468000_4fzyo82mv"] /\
  sessionLeads (store (submit Validation.validateLeadForm
                         (env (failed "timeout") ok) (typed ana))) = [] /\
  submitted (store (submit Validation.validateLeadForm
                      (env (failed "timeout") ok) (typed ana))) = false /\
  formData (submit Validation.validateLeadForm
              (env (failed "timeout") ok) (typed ana)) = ana.
Proof.
  apply (persistence_failure_commits_nothing Validation.validateLeadForm
           (env (failed "timeout") ok) (typed ana) "timeout");
    reflexivity.
Defined.

Lemma notification_failure_is_not_fatal_run :
  sessionLeads (store (submit Validation.validateLeadForm
                         (env ok (failed "smtp down")) (typed ana)))
    = [mkLead "Ana" "ana@x.com" "technology" "2025-07-10T13:51:08.000Z"
         "session_1752155468000_4fzyo82mv"] /\
  submitted (store (submit Validation.validateLeadForm
                      (env ok (failed "smtp down")) (typed ana))) = true /\
  formData (submit Validation.validateLeadForm
              (env ok (failed "smtp down")) (typed ana)) = emptyForm /\
  isSubmitting (submit Validation.validateLeadForm
                  (env ok (failed "smtp down")) (typed ana)) = false /\
  validationErrors (submit Validation.validateLeadForm
                      (env ok (failed "smtp down")) (typed ana)) = [] /\
  console (submit Validation.validateLeadForm
             (env ok (failed "smtp down")) (typed ana))
    = [ConsoleError "Error sending confirmation email:" "smtp down"].
Proof.
  apply (notification_failure_is_not_fatal Validation.validateLeadForm
           (env ok (failed "smtp down")) (typed ana) "smtp down");
    reflexivity.
Defined.

Lemma successful_submission_records_lead_run :
  sessionLeads (store (submit Validation.validateLeadForm (env ok ok) (typed ana)))
    = [mkLead "Ana" "ana@x.com" "technology" "2025-07-10T13:51:08.000Z"
         "session_1752155468000_4fzyo82mv"] /\
  (forall d, (Session.getOrCreateSessionId d
                (localStorage (submit Validation.validateLeadForm
                                 (env ok ok) (typed ana)))).1
             = "session_1752155468000_4fzyo82mv") /\
  submitted (store (submit Validation.validateLeadForm (env ok ok) (typed ana))) = true /\
  name (formData (submit Validation.validateLeadForm (env ok ok) (typed ana))) = "" /\
  email (formData (submit Validation.validateLeadForm (env ok ok) (typed ana))) = "" /\
  industry (formData (submit Validation.validateLeadForm (env ok ok) (typed ana))) = "".
Proof.
  apply (successful_submission_records_lead Validation.validateLeadForm
           (env ok ok) (typed ana));
    reflexivity.
Defined.

Lemma invalid_submission_makes_no_call_run :
  (handleSubmit Validation.validateLeadForm readings (typed bad)).1 = None /\
  submit Validation.validateLeadForm (env ok ok) (typed bad)
    = setValidationErrors
        [mkValidationError "name" "required";
         mkValidationError "email" "format";
         mkValidationError "industry" "required"] (typed bad) /\
  calls (submit Validation.validateLeadForm (env ok ok) (typed bad)) = [] /\
  isSubmitting (submit Validation.validateLeadForm (env ok ok) (typed bad)) = false /\
  store (submit Validation.validateLeadForm (env ok ok) (typed bad)) = initialLeadStore.
Proof.
  apply (invalid_submission_makes_no_call Validation.validateLeadForm
           (env ok ok) (typed bad)).
  vm_compute. discriminate.
Defined.

Lemma persistence_failure_is_only_logged_run :
  console (submit Validation.validateLeadForm (env (failed "timeout") ok) (typed ana))
    = [ConsoleError "Error saving to database:" "timeout";
       ConsoleError "Error submitting form:" "Failed to save lead data"] /\
  shown_errors (render (submit Validation.validateLeadForm
                          (env (failed "timeout") ok) (typed ana))) = [] /\
  render (submit Validation.validateLeadForm (env (failed "timeout") ok) (typed ana))
    = render (setIsSubmitting false (setValidationErrors [] (typed ana))) /\
  formData (submit Validation.validateLeadForm
              (env (failed "timeout") ok) (typed ana)) = ana.
Proof.
  apply (persistence_failure_is_only_logged Validation.validateLeadForm
           (env (failed "timeout") ok) (typed ana) "timeout");
    reflexivity.
Defined.

(** C5, as the claim words it, fails: Ana's valid form is submitted, the
    insert resolves with an error, and the view afterwards shows no error
    text at all; it is the very view the user had before submitting. *)
Lemma persistence_failure_shows_no_indication :
  Validation.validateLeadForm (formData (typed ana)) = [] /\
  error (dbResponse (env (failed "timeout") ok)) = Some "timeout" /\
  ~ (shown_errors (render (submit Validation.validateLeadForm
                             (env (failed "timeout") ok) (typed ana))) <> []) /\
  render (submit Validation.validateLeadForm (env (failed "timeout") ok) (typed ana))
    = render (typed ana).
Proof.
  split; [reflexivity|]. split; [reflexivity|]. split; [|reflexivity].
  intros H. apply H. reflexivity.
Qed.

Lemma awaiting_insert_reachable :
  reachable Validation.validateLeadForm awaiting_insert.
Proof. unfold awaiting_insert. repeat apply reachable_step. apply reachable_init. Defined.

Lemma in_flight_flag_guards_reentry_run :
  inflight awaiting_insert
    = [AwaitInsert ana "session_1752155468000_4fzyo82mv"] /\
  isSubmitting (world awaiting_insert) = true /\
  dispatch Validation.validateLeadForm (Submit readings) awaiting_insert
    = awaiting_insert /\
  isSubmitting (world (dispatch Validation.validateLeadForm
                         (Settle 0 (failed "timeout") "2025-07-10T13:51:09.000Z")
                         awaiting_insert)) = false.
Proof.
  destruct (in_flight_flag_guards_reentry Validation.validateLeadForm
              awaiting_insert awaiting_insert_reachable)
    as (Hflag & Hgate & Hsettled & _).
  assert (Hin : inflight awaiting_insert
                = [AwaitInsert ana "session_1752155468000_4fzyo82mv"])
    by reflexivity.
  assert (Hne : inflight awaiting_insert <> []) by (rewrite Hin; discriminate).
  split; [exact Hin|]. split; [by apply Hflag|].
  split; [by apply Hgate|].
  apply Hsettled. reflexivity.
Defined.

End Runs.

(** ** The industry column migration *)

Section MigrationFacts.
Import Migration.

Lemma cell_insert (c : string) (v : value) (r : gmap string value) :
  cell c (<[c := v]> r) = v.
Proof. unfold cell. by rewrite lookup_insert_eq. Qed.

(** Phase 1: the column is there, without constraint or default, and every
    row reads [NULL] in it. *)
Lemma add_column_nullable (c : string) (t : Table) :
  columns t !! c = None ->
  exec (AddColumn c) t =
    inr {| columns := <[c := mkColumn false None]> (columns t);
           rows := (fun r => <[c := VNull]> r) <$> rows t |}.
Proof. intros Hc. simpl. by rewrite Hc. Qed.

(** Phase 2: the backfill writes the value into every row that reads
    [NULL], here all of them. *)
Lemma backfill_after_add (c v : string) (col : Column)
    (cols : gmap string Column) (rs : list (gmap string value)) :
  exec (UpdateWhereNull c v)
       {| columns := <[c := col]> cols;
          rows := (fun r => <[c := VNull]> r) <$> rs |} =
    inr {| columns := <[c := col]> cols;
           rows := (fun r => <[c := VText v]> r) <$> rs |}.
Proof.
  simpl. rewrite lookup_insert_eq. do 2 f_equal.
  rewrite <- list_fmap_compose. apply list_fmap_ext.
  intros i r _. simpl. rewrite cell_insert. simpl.
  apply insert_insert_eq.
Qed.

Lemma no_null_after_backfill (c v : string) (rs : list (gmap string value)) :
  existsb (fun r => is_null (cell c r)) ((fun r => <[c := VText v]> r) <$> rs)
  = false.
Proof.
  induction rs as [|r rs IH]; [done|].
  rewrite fmap_cons. cbn [existsb]. by rewrite cell_insert, IH.
Qed.

(** Phase 3: with no [NULL] left the constraint is accepted. *)
Lemma set_not_null_after_backfill (c v : string) (col : Column)
    (cols : gmap string Column) (rs : list (gmap string value)) :
  exec (SetNotNull c)
       {| columns := <[c := col]> cols;
          rows := (fun r => <[c := VText v]> r) <$> rs |} =
    inr {| columns := <[c := mkColumn true (col_default col)]> cols;
           rows := (fun r => <[c := VText v]> r) <$> rs |}.
Proof.
  unfold exec. cbn [columns rows].
  rewrite lookup_insert_eq, no_null_after_backfill.
  by rewrite insert_insert_eq.
Qed.

(** Phase 4: the default for the rows to come. *)
Lemma set_default_column (c v : string) (col : Column)
    (cols : gmap string Column) (rs : list (gmap string value)) :
  exec (SetDefault c v) {| columns := <[c := col]> cols; rows := rs |} =
    inr {| columns := <[c := mkColumn (not_null col) (Some v)]> cols;
           rows := rs |}.
Proof. simpl. rewrite lookup_insert_eq. by rewrite insert_insert_eq. Qed.

(** The constraint set before the backfill is refused as soon as the table
    has a row. *)
Lemma constraint_first_is_refused (t : Table) :
  columns t !! "industry" = None -> rows t <> [] ->
  run constraint_first t = inl (NotNullViolation "industry").
Proof.
  intros Hc Hr. unfold constraint_first, run.
  rewrite (add_column_nullable _ _ Hc). simpl.
  rewrite lookup_insert_eq.
  destruct (rows t) as [|r rs]; [done|]. simpl.
  by rewrite cell_insert.
Qed.

(** C10: the migration is the four statements in this order: add the
    column without constraint, backfill ['Other'] where the column is
    [NULL], set [NOT NULL], set the default ['Other']. On every table that
    does not yet have the column it runs through without error; afterwards
    every row that was there holds ['Other'] in [industry] (so no row is
    [NULL] there) and is otherwise as it was, the column is [NOT NULL] with
    default ['Other'], and the other columns are untouched. *)
Theorem migration_backfills_industry (t : Table) :
  columns t !! "industry" = None ->
  migration = [ AddColumn "industry";
                UpdateWhereNull "industry" "Other";
                SetNotNull "industry";
                SetDefault "industry" "Other" ] /\
  exists t',
    run migration t = inr t' /\
    rows t' = (fun r => <["industry" := VText "Other"]> r) <$> rows t /\
    Forall (fun r => cell "industry" r = VText "Other") (rows t') /\
    Forall (fun r => is_null (cell "industry" r) = false) (rows t') /\
    columns t' !! "industry" = Some (mkColumn true (Some "Other")) /\
    (forall c, c <> "industry" -> columns t' !! c = columns t !! c).
Proof.
  intros Hc. split; [reflexivity|].
  eexists. split.
  { unfold migration, run.
    rewrite (add_column_nullable _ _ Hc).
    rewrite backfill_after_add, set_not_null_after_backfill.
    rewrite set_default_column. reflexivity. }
  simpl. split; [done|]. split; [|split; [|split]].
  - apply Forall_fmap, Forall_true. intros r. simpl. apply cell_insert.
  - apply Forall_fmap, Forall_true. intros r. simpl. by rewrite cell_insert.
  - apply lookup_insert_eq.
  - intros c Hne. by apply lookup_insert_ne.
Qed.

Lemma migration_backfills_industry_run :
  exists t',
    run migration Scenario.leads_before = inr t' /\
    rows t' = (fun r => <["industry" := VText "Other"]> r)
                <$> rows Scenario.leads_before /\
    Forall (fun r => cell "industry" r = VText "Other") (rows t') /\
    Forall (fun r => is_null (cell "industry" r) = false) (rows t') /\
    columns t' !! "industry" = Some (mkColumn true (Some "Other")) /\
    (forall c, c <> "industry" ->
       columns t' !! c = columns Scenario.leads_before !! c).
Proof.
  apply (migration_backfills_industry Scenario.leads_before).
  vm_compute. reflexivity.
Defined.

End MigrationFacts.

(** * Further properties of the code *)

(** ** lib/session.ts *)

Section SessionMore.
Import Session.

Lemma string_length_append (a b : string) :
  String.length (a +:+ b) = String.length a + String.length b.
Proof. induction a as [|c a IH]; simpl; [done|]. by rewrite IH. Qed.

(** [substr] keeps what is there: at most [len] characters, fewer when the
    string ends earlier, none when it starts past the end. *)
Lemma substr_length (from len : nat) (s : string) :
  String.length (substr from len s) = Nat.min len (String.length s - from).
Proof.
  unfold substr. revert from len.
  induction s as [|c s IH]; intros [|from] [|len]; simpl;
    rewrite ?IH, ?Nat.sub_0_r; try lia.
  destruct (String.length s - from); lia.
Qed.

(** X1: the length of a generated identifier: the nine characters of
    ["session_"] and the separator, the digits of the clock reading, and of
    the random text the characters from the third on, nine at most. A random
    text of two characters or fewer (["0"]) leaves the identifier without a
    random part. *)
Theorem generateSessionId_length (d : Draw) :
  String.length (generateSessionId d)
  = 9 + String.length (pretty (date_now d))
      + Nat.min 9 (String.length (random_base36 d) - 2).
Proof.
  unfold generateSessionId.
  rewrite !string_length_append, substr_length. simpl. lia.
Qed.

Lemma getOrCreateSessionId_usable (d : Draw) (ls : Storage) :
  js_not (ls !! SESSION_KEY) = false -> (getOrCreateSessionId d ls).2 = ls.
Proof.
  intros E. destruct (ls !! SESSION_KEY) as [[|c s]|] eqn:L; try done.
  by rewrite (getOrCreateSessionId_present d ls (String c s)).
Qed.

(** X2: [getOrCreateSessionId] writes to the storage exactly when it finds no
    usable identifier: the storage comes back unchanged if and only if a
    non-empty string was stored under the session key. *)
Theorem getOrCreateSessionId_writes_iff (d : Draw) (ls : Storage) :
  (getOrCreateSessionId d ls).2 = ls <-> js_not (ls !! SESSION_KEY) = false.
Proof.
  split.
  - intros Heq. destruct (js_not (ls !! SESSION_KEY)) eqn:E; [|done].
    pose proof (getOrCreateSessionId_stored d ls) as [Hst Hne].
    rewrite Heq in Hst. rewrite Hst in E.
    destruct ((getOrCreateSessionId d ls).1); done.
  - apply getOrCreateSessionId_usable.
Qed.

(** X3: neither function touches another key of the storage. *)
Theorem session_functions_leave_other_keys (d : Draw) (ls : Storage) (k : string) :
  k <> SESSION_KEY ->
  (getOrCreateSessionId d ls).2 !! k = ls !! k /\
  clearSessionId ls !! k = ls !! k.
Proof.
  intros Hk. split.
  - destruct (js_not (ls !! SESSION_KEY)) eqn:E.
    + rewrite getOrCreateSessionId_absent by done. simpl.
      by rewrite lookup_insert_ne.
    + by rewrite getOrCreateSessionId_usable.
  - unfold clearSessionId, removeItem. by rewrite lookup_delete_ne.
Qed.

Lemma session_functions_leave_other_keys_run :
  (getOrCreateSessionId Scenario.readings {[ "theme" := "dark" ]}).2 !! "theme"
    = Some "dark" /\
  clearSessionId {[ "theme" := "dark"; SESSION_KEY := "abc" ]} !! "theme"
    = Some "dark".
Proof.
  split.
  - rewrite (proj1 (session_functions_leave_other_keys
                      Scenario.readings {[ "theme" := "dark" ]} "theme"
                      ltac:(discriminate))).
    reflexivity.
  - rewrite (proj2 (session_functions_leave_other_keys
                      Scenario.readings
                      {[ "theme" := "dark"; SESSION_KEY := "abc" ]} "theme"
                      ltac:(discriminate))).
    reflexivity.
Defined.

(** X4: [clearSessionId] forgets whatever identifier there was: clearing
    after [getOrCreateSessionId] gives the storage that clearing alone gives,
    clearing twice is clearing once, and on a storage without the key it
    changes nothing. *)
Theorem clearSessionId_forgets (d : Draw) (ls : Storage) :
  clearSessionId (getOrCreateSessionId d ls).2 = clearSessionId ls /\
  clearSessionId (clearSessionId ls) = clearSessionId ls /\
  (ls !! SESSION_KEY = None -> clearSessionId ls = ls) /\
  (ls !! SESSION_KEY = None ->
   clearSessionId (getOrCreateSessionId d ls).2 = ls).
Proof.
  assert (H1 : clearSessionId (getOrCreateSessionId d ls).2 = clearSessionId ls).
  { destruct (js_not (ls !! SESSION_KEY)) eqn:E.
    - rewrite getOrCreateSessionId_absent by done. simpl.
      unfold clearSessionId, removeItem. apply delete_insert_eq.
    - by rewrite getOrCreateSessionId_usable. }
  assert (H3 : ls !! SESSION_KEY = None -> clearSessionId ls = ls).
  { intros Hn. unfold clearSessionId, removeItem. by apply delete_id. }
  split; [done|]. split; [|split; [done|]].
  - unfold clearSessionId, removeItem. apply delete_delete_eq.
  - intros Hn. rewrite H1. by apply H3.
Qed.

End SessionMore.

(** ** components/LeadCaptureForm.tsx: the inline messages and the inputs *)

Section FormMore.

Lemma find_field_None (f : string) (l : list ValidationError) :
  find (fun e => bool_decide (field e = f)) l = None <->
  Forall (fun e => field e <> f) l.
Proof.
  induction l as [|e l IH]; simpl.
  - split; [constructor|done].
  - case_bool_decide as He.
    + split; [done|]. intros Hall. by inversion Hall.
    + rewrite IH. split; [by constructor|]. intros Hall. by inversion Hall.
Qed.

Lemma find_field_skip (f : string) (l1 l : list ValidationError) :
  Forall (fun e => field e <> f) l1 ->
  find (fun e => bool_decide (field e = f)) (l1 ++ l)
  = find (fun e => bool_decide (field e = f)) l.
Proof.
  induction 1 as [|e l1 He _ IH]; simpl; [done|].
  by rewrite bool_decide_eq_false_2.
Qed.

Lemma find_field_filter_self (f : string) (l : list ValidationError) :
  find (fun e => bool_decide (field e = f)) (filter (fun e => field e <> f) l)
  = None.
Proof.
  apply find_field_None, Forall_forall.
  intros e He. by apply list_elem_of_filter in He as [He _].
Qed.

Lemma find_field_filter_other (f g : string) (l : list ValidationError) :
  g <> f ->
  find (fun e => bool_decide (field e = g)) (filter (fun e => field e <> f) l)
  = find (fun e => bool_decide (field e = g)) l.
Proof.
  intros Hne. induction l as [|e l IH]; [done|].
  rewrite filter_cons. case_decide as Hf; simpl.
  - by rewrite IH.
  - rewrite IH. rewrite bool_decide_eq_false_2; [done|].
    intros Hg. apply Hne. destruct (decide (field e = f)); [congruence|done].
Qed.

Lemma existsb_field_false (f : string) (l : list ValidationError) :
  existsb (fun e => bool_decide (field e = f)) l = false ->
  filter (fun e => field e <> f) l = l.
Proof.
  induction l as [|e l IH]; simpl; [done|].
  case_bool_decide as He; simpl; [done|]. intros Hl.
  rewrite filter_cons_True by done. by rewrite IH.
Qed.

(** The handler written without its test: the errors of the changed field
    are dropped, and dropping is the identity when there are none. *)
Lemma handleInputChange_unfold (f v : string) (w : World) :
  handleInputChange f v w
  = setValidationErrors
      (filter (fun e => field e <> f) (validationErrors w))
      (setFormData (formData (handleInputChange f v w)) w).
Proof.
  unfold handleInputChange.
  cbn [validationErrors setFormData].
  destruct (existsb _ (validationErrors w)) eqn:Hex.
  - done.
  - rewrite (existsb_field_false _ _ Hex). by destruct w.
Qed.

Lemma handleInputChange_formData (f v : string) (w : World) :
  formData (handleInputChange f v w)
  = if bool_decide (f = "name") then
      {| name := v; email := email (formData w); industry := industry (formData w) |}
    else if bool_decide (f = "email") then
      {| name := name (formData w); email := v; industry := industry (formData w) |}
    else if bool_decide (f = "industry") then
      {| name := name (formData w); email := email (formData w); industry := v |}
    else formData w.
Proof.
  unfold handleInputChange. cbn [validationErrors setFormData].
  by destruct (existsb _ (validationErrors w)).
Qed.

Lemma handleInputChange_validationErrors (f v : string) (w : World) :
  validationErrors (handleInputChange f v w)
  = filter (fun e => field e <> f) (validationErrors w).
Proof. by rewrite handleInputChange_unfold. Qed.

Lemma handleInputChange_frame (f v : string) (w : World) :
  isSubmitting (handleInputChange f v w) = isSubmitting w /\
  store (handleInputChange f v w) = store w /\
  localStorage (handleInputChange f v w) = localStorage w /\
  calls (handleInputChange f v w) = calls w /\
  console (handleInputChange f v w) = console w.
Proof. rewrite handleInputChange_unfold. simpl. done. Qed.

Lemma world_eq (w1 w2 : World) :
  formData w1 = formData w2 ->
  validationErrors w1 = validationErrors w2 ->
  isSubmitting w1 = isSubmitting w2 ->
  store w1 = store w2 ->
  localStorage w1 = localStorage w2 ->
  calls w1 = calls w2 ->
  console w1 = console w2 ->
  w1 = w2.
Proof. destruct w1, w2; simpl; by intros -> -> -> -> -> -> ->. Qed.

(** X5: [getFieldError] finds nothing exactly when no error carries the
    field. *)
Theorem getFieldError_None_iff (w : World) (f : string) :
  getFieldError w f = None <->
  Forall (fun e => field e <> f) (validationErrors w).
Proof.
  unfold getFieldError. rewrite <- find_field_None.
  destruct (find _ (validationErrors w)); simpl; split; done.
Qed.

(** X6: with several errors for one field, [getFieldError] gives the message
    of the first of them in the list. *)
Theorem getFieldError_first (w : World) (e : ValidationError)
    (before after : list ValidationError) :
  validationErrors w = before ++ e :: after ->
  Forall (fun e' => field e' <> field e) before ->
  getFieldError w (field e) = Some (message e).
Proof.
  intros Hl Hb. unfold getFieldError.
  rewrite Hl, (find_field_skip _ _ _ Hb). simpl.
  by rewrite bool_decide_eq_true_2.
Qed.

Lemma getFieldError_first_run :
  getFieldError Scenario.with_messages "email" = Some "required".
Proof.
  apply (getFieldError_first Scenario.with_messages
           (mkValidationError "email" "required") []
           [mkValidationError "industry" "required";
            mkValidationError "email" "format"]).
  - reflexivity.
  - constructor.
Defined.

(** A change writes the value into the field named and leaves the other two
    fields alone; a key that is none of the three leaves all of them alone. *)
Lemma handleInputChange_writes_one_field (v : string) (w : World) :
  formData (handleInputChange "name" v w)
    = {| name := v; email := email (formData w); industry := industry (formData w) |} /\
  formData (handleInputChange "email" v w)
    = {| name := name (formData w); email := v; industry := industry (formData w) |} /\
  formData (handleInputChange "industry" v w)
    = {| name := name (formData w); email := email (formData w); industry := v |} /\
  (forall f, f <> "name" -> f <> "email" -> f <> "industry" ->
     formData (handleInputChange f v w) = formData w).
Proof.
  repeat split; try by rewrite handleInputChange_formData.
  intros f H1 H2 H3. rewrite handleInputChange_formData.
  by rewrite !bool_decide_eq_false_2.
Qed.

(** X7: after a change the field changed shows no message any more, whatever
    was typed, and the messages of the other fields are the ones shown
    before. *)
Theorem handleInputChange_clears_own_message (f v : string) (w : World) :
  getFieldError (handleInputChange f v w) f = None /\
  (forall g, g <> f ->
     getFieldError (handleInputChange f v w) g = getFieldError w g).
Proof.
  unfold getFieldError. rewrite handleInputChange_validationErrors. split.
  - by rewrite find_field_filter_self.
  - intros g Hg. by rewrite find_field_filter_other.
Qed.

(** X8: a change touches the form fields and the messages only: the
    in-flight flag, the lead store, the storage, the requests and the console
    are as before, and no message is added (the messages after are a sublist
    of the messages before). *)
Theorem handleInputChange_touches_the_form_only (f v : string) (w : World) :
  isSubmitting (handleInputChange f v w) = isSubmitting w /\
  store (handleInputChange f v w) = store w /\
  localStorage (handleInputChange f v w) = localStorage w /\
  calls (handleInputChange f v w) = calls w /\
  console (handleInputChange f v w) = console w /\
  validationErrors (handleInputChange f v w) `sublist_of` validationErrors w.
Proof.
  destruct (handleInputChange_frame f v w) as (H1 & H2 & H3 & H4 & H5).
  repeat split; try done.
  rewrite handleInputChange_validationErrors. apply sublist_filter.
Qed.

(** X9: of two changes to the same field the later one wins: the state is
    the one the later change alone gives. *)
Theorem handleInputChange_last_write_wins (f v1 v2 : string) (w : World) :
  handleInputChange f v2 (handleInputChange f v1 w) = handleInputChange f v2 w.
Proof.
  destruct (handleInputChange_frame f v1 w) as (H1 & H2 & H3 & H4 & H5).
  destruct (handleInputChange_frame f v2 w) as (K1 & K2 & K3 & K4 & K5).
  destruct (handleInputChange_frame f v2 (handleInputChange f v1 w))
    as (L1 & L2 & L3 & L4 & L5).
  apply world_eq; try congruence.
  - rewrite !handleInputChange_formData. simpl.
    by repeat case_bool_decide.
  - rewrite !handleInputChange_validationErrors.
    by rewrite list_filter_filter_l.
Qed.

(** X10: changes to two different fields can be made in either order. *)
Theorem handleInputChange_commutes (f g u v : string) (w : World) :
  f <> g ->
  handleInputChange f u (handleInputChange g v w)
  = handleInputChange g v (handleInputChange f u w).
Proof.
  intros Hne.
  destruct (handleInputChange_frame f u w) as (H1 & H2 & H3 & H4 & H5).
  destruct (handleInputChange_frame g v w) as (K1 & K2 & K3 & K4 & K5).
  destruct (handleInputChange_frame f u (handleInputChange g v w))
    as (L1 & L2 & L3 & L4 & L5).
  destruct (handleInputChange_frame g v (handleInputChange f u w))
    as (M1 & M2 & M3 & M4 & M5).
  apply world_eq; try congruence.
  - rewrite !handleInputChange_formData. simpl.
    repeat case_bool_decide; simpl; congruence.
  - rewrite !handleInputChange_validationErrors, !list_filter_filter.
    apply list_filter_iff. intros e. tauto.
Qed.

Lemma handleInputChange_commutes_run :
  handleInputChange "name" "Ana"
    (handleInputChange "email" "ana@x.com" Scenario.with_messages)
  = handleInputChange "email" "ana@x.com"
      (handleInputChange "name" "Ana" Scenario.with_messages).
Proof.
  apply (handleInputChange_commutes "name" "email" "Ana" "ana@x.com"
           Scenario.with_messages).
  discriminate.
Defined.

End FormMore.

(** ** components/LeadCaptureForm.tsx: one submission *)

Section SubmissionMore.
Import Session.

Variable validateLeadForm : FormData -> list ValidationError.

(** X11: whatever the remote calls answer, the messages after a submission
    are the validator's verdict on the form as it was submitted. *)
Theorem submit_shows_the_verdict (e : Env) (w : World) :
  validationErrors (submit validateLeadForm e w) = validateLeadForm (formData w).
Proof.
  unfold submit.
  destruct (decide (validateLeadForm (formData w) = [])) as [Hv|Hv].
  - rewrite (handleSubmit_valid _ _ _ Hv), Hv. simpl.
    destruct (error (dbResponse e)); simpl; [done|].
    by destruct (error (fnResponse e)).
  - by rewrite (handleSubmit_invalid _ _ _ Hv).
Qed.

(** X12: a submission reads or creates the session identifier exactly when
    the form is valid. With errors the storage is not touched; without, the
    storage is the one [getOrCreateSessionId] leaves, and it stays so whatever
    the remote calls answer, a failed insert included. *)
Theorem submit_storage (e : Env) (w : World) :
  localStorage (submit validateLeadForm e w)
  = match validateLeadForm (formData w) with
    | [] => (getOrCreateSessionId (draw e) (localStorage w)).2
    | _ :: _ => localStorage w
    end.
Proof.
  unfold submit.
  destruct (decide (validateLeadForm (formData w) = [])) as [Hv|Hv].
  - rewrite (handleSubmit_valid _ _ _ Hv), Hv. simpl.
    destruct (error (dbResponse e)); simpl; [done|].
    by destruct (error (fnResponse e)).
  - rewrite (handleSubmit_invalid _ _ _ Hv).
    by destruct (validateLeadForm (formData w)).
Qed.

(** X13: when the insert succeeds, the submission issues two requests, the
    insert first and the invocation of ["send-confirmation"] second, both
    with the fields as submitted, whatever the invocation answers. *)
Theorem submit_requests_in_order (e : Env) (w : World) :
  validateLeadForm (formData w) = [] ->
  error (dbResponse e) = None ->
  calls (submit validateLeadForm e w)
  = calls w ++
    [InsertLead (name (formData w)) (email (formData w)) (industry (formData w))
       (getOrCreateSessionId (draw e) (localStorage w)).1;
     InvokeFunction "send-confirmation"
       (name (formData w)) (email (formData w)) (industry (formData w))].
Proof.
  intros Hv Hdb. unfold submit.
  rewrite (handleSubmit_valid _ _ _ Hv). simpl. rewrite Hdb. simpl.
  destruct (error (fnResponse e)); simpl; by rewrite <- app_assoc.
Qed.

(** X14: what the invocation answers reaches the console and nothing else:
    two submissions that differ in that answer only end with the same form,
    messages, flag, lead store, storage and requests. *)
Theorem invocation_answer_reaches_the_console_only
    (e : Env) (fn' : Response) (w : World) :
  let w1 := submit validateLeadForm e w in
  let w2 := submit validateLeadForm
              (mkEnv (draw e) (dbResponse e) fn' (iso_now e)) w in
  formData w1 = formData w2 /\
  validationErrors w1 = validationErrors w2 /\
  isSubmitting w1 = isSubmitting w2 /\
  store w1 = store w2 /\
  localStorage w1 = localStorage w2 /\
  calls w1 = calls w2.
Proof.
  unfold submit. simpl.
  destruct (decide (validateLeadForm (formData w) = [])) as [Hv|Hv].
  - rewrite (handleSubmit_valid _ _ _ Hv). simpl.
    destruct (error (dbResponse e)); simpl; [done|].
    by destruct (error (fnResponse e)), (error fn').
  - by rewrite (handleSubmit_invalid _ _ _ Hv).
Qed.

End SubmissionMore.

Lemma submit_requests_in_order_run :
  calls (submit Validation.validateLeadForm
           (Scenario.env Scenario.ok (Scenario.failed "smtp down"))
           (Scenario.typed Scenario.ana))
  = [InsertLead "Ana" "ana@x.com" "technology" "session_1752155468000_4fzyo82mv";
     InvokeFunction "send-confirmation" "Ana" "ana@x.com" "technology"].
Proof.
  apply (submit_requests_in_order Validation.validateLeadForm
           (Scenario.env Scenario.ok (Scenario.failed "smtp down"))
           (Scenario.typed Scenario.ana));
    reflexivity.
Defined.

(** ** components/LeadCaptureForm.tsx: what holds on every page *)

Section PageMore.
Import Session.

Variable validateLeadForm : FormData -> list ValidationError.

(** The three ways an event is handled: a submit or a change that goes
    through or is ignored, and a settlement by the handler it wakes. *)
Ltac by_event ev p :=
  let Hs := fresh "Hsub" in
  let Hv := fresh "Hv" in
  let Hi := fresh "Hi" in
  destruct ev as [d|f v|i r t]; simpl;
  [ destruct (isSubmitting (world p)) eqn:Hs; [|
      destruct (decide (validateLeadForm (formData (world p)) = [])) as [Hv|Hv];
      [ rewrite (handleSubmit_valid validateLeadForm d (world p) Hv)
      | rewrite (handleSubmit_invalid validateLeadForm d (world p) Hv) ] ]
  | destruct (isSubmitting (world p)) eqn:Hs
  | destruct (inflight p !! i) as [[fd sid|fd sid]|] eqn:Hi; simpl;
    [ destruct (error r) | | ] ];
  simpl.

Lemma lead_form_eta (fd : FormData) (t sid : string) :
  lead_form (mkLead (name fd) (email fd) (industry fd) t sid) = fd.
Proof. by destruct fd. Qed.

Lemma dispatch_validated (ev : UIEvent) (p : Page) :
  Forall (fun l => validateLeadForm (lead_form l) = [])
         (sessionLeads (store (world p))) ->
  Forall (fun k => validateLeadForm (suspended_form k) = []) (inflight p) ->
  Forall (fun l => validateLeadForm (lead_form l) = [])
         (sessionLeads (store (world (dispatch validateLeadForm ev p)))) /\
  Forall (fun k => validateLeadForm (suspended_form k) = [])
         (inflight (dispatch validateLeadForm ev p)).
Proof.
  intros Hl Hk. by_event ev p; try done.
  - split; [done|]. apply Forall_app. split; [done|]. by apply Forall_singleton.
  - by rewrite app_nil_r.
  - by rewrite handleInputChange_store.
  - split; [done|]. by apply Forall_delete.
  - split; [done|]. apply Forall_insert; [done|].
    apply (Forall_lookup_1 _ _ _ _ Hk Hi).
  - split; [|by apply Forall_delete].
    assert (Hfd : validateLeadForm fd = [])
      by apply (Forall_lookup_1 _ _ _ _ Hk Hi).
    destruct (error r); simpl; apply Forall_app; split; try done;
      apply Forall_singleton; by rewrite lead_form_eta.
Qed.

(** X15: on every page that events can lead to, each lead in the store was
    built from fields on which the validator returned no error. *)
Theorem leads_passed_validation (p : Page) :
  reachable validateLeadForm p ->
  Forall (fun l => validateLeadForm (lead_form l) = [])
         (sessionLeads (store (world p))).
Proof.
  intros Hr.
  cut (Forall (fun l => validateLeadForm (lead_form l) = [])
              (sessionLeads (store (world p))) /\
       Forall (fun k => validateLeadForm (suspended_form k) = []) (inflight p));
    [by intros [? _]|].
  induction Hr as [ls|p ev _ [IHl IHk]].
  - split; constructor.
  - by apply dispatch_validated.
Qed.

Lemma stored_session_stable (d : Draw) (ls : Storage) (s : string) :
  ls !! SESSION_KEY = Some s -> s <> "" ->
  (getOrCreateSessionId d ls).2 !! SESSION_KEY = Some s.
Proof. intros Hs Hne. by rewrite (getOrCreateSessionId_present d ls s). Qed.

Lemma dispatch_stored (ev : UIEvent) (p : Page) :
  session_inv p ->
  Forall (fun l => localStorage (world p) !! SESSION_KEY = Some (session_id l))
         (sessionLeads (store (world p))) ->
  Forall (fun k => localStorage (world p) !! SESSION_KEY
                   = Some (suspended_session k)) (inflight p) ->
  Forall (fun l => localStorage (world (dispatch validateLeadForm ev p)) !! SESSION_KEY
                   = Some (session_id l))
         (sessionLeads (store (world (dispatch validateLeadForm ev p)))) /\
  Forall (fun k => localStorage (world (dispatch validateLeadForm ev p)) !! SESSION_KEY
                   = Some (suspended_session k))
         (inflight (dispatch validateLeadForm ev p)).
Proof.
  intros [Nl Nk] Hl Hk. by_event ev p; try done.
  - split; [|apply Forall_app; split].
    + apply Forall_forall. intros l Hin. apply stored_session_stable.
      * apply (proj1 (Forall_forall _ _) Hl l Hin).
      * apply (proj1 (Forall_forall _ _) Nl l Hin).
    + apply Forall_forall. intros k Hin. apply stored_session_stable.
      * apply (proj1 (Forall_forall _ _) Hk k Hin).
      * apply (proj1 (Forall_forall _ _) Nk k Hin).
    + apply Forall_singleton. simpl. apply getOrCreateSessionId_stored.
  - by rewrite app_nil_r.
  - destruct (handleInputChange_frame f v (world p)) as (_ & -> & -> & _).
    done.
  - split; [done|]. by apply Forall_delete.
  - split; [done|]. apply Forall_insert; [done|].
    apply (Forall_lookup_1 _ _ _ _ Hk Hi).
  - assert (Hsid : localStorage (world p) !! SESSION_KEY = Some sid)
      by apply (Forall_lookup_1 _ _ _ _ Hk Hi).
    destruct (error r); simpl; (split; [|by apply Forall_delete]);
      apply Forall_app; split; try done; by apply Forall_singleton.
Qed.

Lemma reachable_stored (p : Page) :
  reachable validateLeadForm p ->
  Forall (fun l => localStorage (world p) !! SESSION_KEY = Some (session_id l))
         (sessionLeads (store (world p))) /\
  Forall (fun k => localStorage (world p) !! SESSION_KEY
                   = Some (suspended_session k)) (inflight p).
Proof.
  induction 1 as [ls|p ev Hr [IHl IHk]].
  - split; constructor.
  - apply dispatch_stored; try done.
    by apply (reachable_session_inv validateLeadForm).
Qed.

(** X16: on every page that events can lead to, each lead in the store
    carries the identifier the storage holds under the session key; so all
    the leads of one page lifetime carry one and the same identifier. *)
Theorem leads_share_the_stored_session (p : Page) :
  reachable validateLeadForm p ->
  Forall (fun l => localStorage (world p) !! SESSION_KEY = Some (session_id l))
         (sessionLeads (store (world p))) /\
  (forall l1 l2,
     l1 ∈ sessionLeads (store (world p)) ->
     l2 ∈ sessionLeads (store (world p)) ->
     session_id l1 = session_id l2).
Proof.
  intros Hr. destruct (reachable_stored p Hr) as [Hl _]. split; [done|].
  intros l1 l2 H1 H2.
  pose proof (proj1 (Forall_forall _ _) Hl l1 H1) as E1.
  pose proof (proj1 (Forall_forall _ _) Hl l2 H2) as E2.
  congruence.
Qed.

(** X17: no event takes a lead out of the store or turns [submitted] off:
    the leads before an event are a prefix of the leads after it, and
    [submitted], once true, stays true. This holds from any page. *)
Theorem store_only_grows (ev : UIEvent) (p : Page) :
  sessionLeads (store (world p))
    `prefix_of` sessionLeads (store (world (dispatch validateLeadForm ev p))) /\
  (submitted (store (world p)) = true ->
   submitted (store (world (dispatch validateLeadForm ev p))) = true).
Proof.
  by_event ev p; try done.
  - by rewrite handleInputChange_store.
  - split; [|done].
    destruct (error r); simpl; by apply prefix_app_r.
Qed.

Lemma dispatch_submitted_iff (ev : UIEvent) (p : Page) :
  (submitted (store (world p)) = true <-> sessionLeads (store (world p)) <> []) ->
  (submitted (store (world (dispatch validateLeadForm ev p))) = true <->
   sessionLeads (store (world (dispatch validateLeadForm ev p))) <> []).
Proof.
  intros Hp. by_event ev p; try done.
  - by rewrite handleInputChange_store.
  - split; [|done]. intros _.
    destruct (error r); simpl; by intros [_ ?]%app_eq_nil.
Qed.

(** X18: on every page that events can lead to, [submitted] is true exactly
    when the store holds a lead. *)
Theorem submitted_iff_a_lead_is_recorded (p : Page) :
  reachable validateLeadForm p ->
  (submitted (store (world p)) = true <-> sessionLeads (store (world p)) <> []).
Proof.
  induction 1 as [ls|p ev _ IH].
  - simpl. split; done.
  - by apply dispatch_submitted_iff.
Qed.

Lemma count_app {A : Type} (f : A -> bool) (l1 l2 : list A) :
  count f (l1 ++ l2) = count f l1 + count f l2.
Proof. unfold count. by rewrite List.filter_app, length_app. Qed.

Lemma count_singleton {A : Type} (f : A -> bool) (x : A) :
  count f [x] = Nat.b2n (f x).
Proof. unfold count. simpl. by destruct (f x). Qed.

Lemma count_delete {A : Type} (f : A -> bool) (l : list A) (i : nat) (k : A) :
  l !! i = Some k -> count f (delete i l) + Nat.b2n (f k) = count f l.
Proof.
  unfold count. revert i. induction l as [|x l IH]; intros [|i] Hi; try done.
  - simpl in Hi. injection Hi as ->. simpl. destruct (f k); simpl; lia.
  - simpl in Hi. specialize (IH i Hi). simpl.
    destruct (f x); simpl; lia.
Qed.

Lemma count_insert {A : Type} (f : A -> bool) (l : list A) (i : nat) (k k' : A) :
  l !! i = Some k ->
  count f (<[i := k']> l) + Nat.b2n (f k) = count f l + Nat.b2n (f k').
Proof.
  unfold count. revert i. induction l as [|x l IH]; intros [|i] Hi; try done.
  - simpl in Hi. injection Hi as ->. simpl.
    destruct (f k), (f k'); simpl; lia.
  - simpl in Hi. specialize (IH i Hi). simpl.
    destruct (f x); simpl; lia.
Qed.

Lemma dispatch_accounting (ev : UIEvent) (p : Page) :
  accounting_inv p -> accounting_inv (dispatch validateLeadForm ev p).
Proof.
  unfold accounting_inv. intros [Heq Hle]. by_event ev p; try done.
  - rewrite !count_app, !count_singleton. simpl. lia.
  - by rewrite app_nil_r.
  - destruct (handleInputChange_frame f v (world p)) as (_ & -> & _ & -> & _).
    done.
  - pose proof (count_delete awaits_invoke _ _ _ Hi) as H1.
    pose proof (count_delete awaits_insert _ _ _ Hi) as H2.
    simpl in H1, H2. lia.
  - pose proof (count_insert awaits_invoke _ _ _ (AwaitInvoke fd sid) Hi) as H1.
    pose proof (count_insert awaits_insert _ _ _ (AwaitInvoke fd sid) Hi) as H2.
    rewrite !count_app, !count_singleton. simpl in *. lia.
  - pose proof (count_delete awaits_invoke _ _ _ Hi) as H1.
    pose proof (count_delete awaits_insert _ _ _ Hi) as H2.
    simpl in H1, H2.
    destruct (error r); simpl; rewrite length_app; simpl; lia.
Qed.

(** X19: on every page that events can lead to, the store holds no more
    leads than invocations were issued, and no more invocations were issued
    than inserts: a lead is recorded only after its insert and its
    invocation went out. When nothing is in flight, the leads are as many as
    the invocations. *)
Theorem leads_follow_the_requests (p : Page) :
  reachable validateLeadForm p ->
  length (sessionLeads (store (world p))) <= count is_invoke (calls (world p)) /\
  count is_invoke (calls (world p)) <= count is_insert (calls (world p)) /\
  (inflight p = [] ->
   length (sessionLeads (store (world p))) = count is_invoke (calls (world p))).
Proof.
  intros Hr.
  assert (Hacc : accounting_inv p).
  { induction Hr as [ls|p ev _ IH].
    - split; simpl; done.
    - by apply dispatch_accounting. }
  destruct Hacc as [Heq Hle]. split; [lia|]. split; [lia|].
  intros Hnil. rewrite Hnil in Heq. unfold count at 1 in Heq. simpl in Heq. lia.
Qed.

Lemma dispatch_frozen (ev : UIEvent) (p : Page) :
  guard_inv p ->
  Forall (fun k => suspended_form k = formData (world p)) (inflight p) ->
  Forall (fun k => suspended_form k
                   = formData (world (dispatch validateLeadForm ev p)))
         (inflight (dispatch validateLeadForm ev p)).
Proof.
  intros Hg Hk. by_event ev p; try done.
  - apply Forall_app. split; [done|]. by apply Forall_singleton.
  - by rewrite app_nil_r.
  - destruct Hg as [[-> _]|(k & _ & Hs)]; [constructor|congruence].
  - by apply Forall_delete.
  - apply Forall_insert; [done|]. apply (Forall_lookup_1 _ _ _ _ Hk Hi).
  - destruct Hg as [[Hn _]|(k & Hn & _)]; rewrite Hn in Hi; [done|].
    rewrite Hn. destruct i as [|i]; [|done].
    destruct (error r); simpl; constructor.
Qed.

(** X20: the form is frozen while a submission is in flight. On every page
    that events can lead to, the form a suspended handler closed over is the
    form on the page, and a change of a field is ignored until the attempt is
    over; so the lead recorded is the form as the user sees it. *)
Theorem form_is_frozen_in_flight (p : Page) :
  reachable validateLeadForm p ->
  Forall (fun k => suspended_form k = formData (world p)) (inflight p) /\
  (inflight p <> [] ->
   forall f v, dispatch validateLeadForm (Change f v) p = p).
Proof.
  intros Hr. split.
  - induction Hr as [ls|p ev Hr IH]; [constructor|].
    apply dispatch_frozen; [|done].
    by apply (reachable_guard_inv validateLeadForm).
  - intros Hne f v. simpl.
    destruct (reachable_guard_inv validateLeadForm p Hr)
      as [[Hn _]|(k & _ & ->)]; done.
Qed.

End PageMore.

(** *** The pages of the concrete submission *)

Lemma recorded_reachable :
  reachable Validation.validateLeadForm Scenario.recorded.
Proof.
  unfold Scenario.recorded. do 2 apply reachable_step.
  apply awaiting_insert_reachable.
Defined.

Lemma leads_passed_validation_run :
  Forall (fun l => Validation.validateLeadForm (lead_form l) = [])
         (sessionLeads (store (world Scenario.recorded))).
Proof.
  apply (leads_passed_validation Validation.validateLeadForm
           Scenario.recorded recorded_reachable).
Defined.

Lemma leads_share_the_stored_session_run :
  Forall (fun l => localStorage (world Scenario.recorded) !! Session.SESSION_KEY
                   = Some (session_id l))
         (sessionLeads (store (world Scenario.recorded))) /\
  (forall l1 l2,
     l1 ∈ sessionLeads (store (world Scenario.recorded)) ->
     l2 ∈ sessionLeads (store (world Scenario.recorded)) ->
     session_id l1 = session_id l2).
Proof.
  apply (leads_share_the_stored_session Validation.validateLeadForm
           Scenario.recorded recorded_reachable).
Defined.

Lemma submitted_iff_a_lead_is_recorded_run :
  submitted (store (world Scenario.recorded)) = true <->
  sessionLeads (store (world Scenario.recorded)) <> [].
Proof.
  apply (submitted_iff_a_lead_is_recorded Validation.validateLeadForm
           Scenario.recorded recorded_reachable).
Defined.

Lemma leads_follow_the_requests_run :
  length (sessionLeads (store (world Scenario.recorded)))
    <= count is_invoke (calls (world Scenario.recorded)) /\
  count is_invoke (calls (world Scenario.recorded))
    <= count is_insert (calls (world Scenario.recorded)) /\
  (inflight Scenario.recorded = [] ->
   length (sessionLeads (store (world Scenario.recorded)))
   = count is_invoke (calls (world Scenario.recorded))).
Proof.
  apply (leads_follow_the_requests Validation.validateLeadForm
           Scenario.recorded recorded_reachable).
Defined.

Lemma form_is_frozen_in_flight_run :
  Forall (fun k => suspended_form k = formData (world Scenario.awaiting_insert))
         (inflight Scenario.awaiting_insert) /\
  (inflight Scenario.awaiting_insert <> [] ->
   forall f v,
     dispatch Validation.validateLeadForm (Change f v) Scenario.awaiting_insert
     = Scenario.awaiting_insert).
Proof.
  apply (form_is_frozen_in_flight Validation.validateLeadForm
           Scenario.awaiting_insert awaiting_insert_reachable).
Defined.

(** ** The migration, statement by statement *)

Section MigrationMore.
Import Migration.

Lemma update_undefined (c v : string) (t : Table) :
  columns t !! c = None -> exec (UpdateWhereNull c v) t = inl (UndefinedColumn c).
Proof. intros Hc. simpl. by rewrite Hc. Qed.

Lemma set_not_null_undefined (c : string) (t : Table) :
  columns t !! c = None -> exec (SetNotNull c) t = inl (UndefinedColumn c).
Proof. intros Hc. simpl. by rewrite Hc. Qed.

Lemma set_default_undefined (c v : string) (t : Table) :
  columns t !! c = None -> exec (SetDefault c v) t = inl (UndefinedColumn c).
Proof. intros Hc. simpl. by rewrite Hc. Qed.

Lemma set_not_null_refused_after_add (c : string) (col : Column)
    (cols : gmap string Column) (rs : list (gmap string value)) :
  rs <> [] ->
  exec (SetNotNull c)
       {| columns := <[c := col]> cols;
          rows := (fun r => <[c := VNull]> r) <$> rs |}
  = inl (NotNullViolation c).
Proof.
  intros Hrs. unfold exec. cbn [columns rows]. rewrite lookup_insert_eq.
  destruct rs as [|r rs]; [done|].
  rewrite fmap_cons. cbn [existsb]. by rewrite cell_insert.
Qed.

Lemma no_null_iff (c : string) (rs : list (gmap string value)) :
  existsb (fun r => is_null (cell c r)) rs = false <->
  Forall (fun r => is_null (cell c r) = false) rs.
Proof.
  induction rs as [|r rs IH]; simpl.
  - split; [constructor|done].
  - rewrite orb_false_iff, IH. split.
    + intros [? ?]. by constructor.
    + intros H. by inversion H.
Qed.

(** X21: the migration cannot be run a second time: on a table that already
    has the column, its first statement is refused and nothing is done. *)
Theorem migration_is_not_rerunnable (t : Table) (col : Column) :
  columns t !! "industry" = Some col ->
  run migration t = inl (DuplicateColumn "industry").
Proof. intros Hc. unfold migration, run. simpl. by rewrite Hc. Qed.

Lemma migration_is_not_rerunnable_run :
  run migration Scenario.leads_after = inl (DuplicateColumn "industry").
Proof.
  apply (migration_is_not_rerunnable Scenario.leads_after
           (mkColumn true (Some "Other"))).
  reflexivity.
Defined.

(** X22: the backfill statement on its own. On a table that has the column
    it succeeds, keeps the columns and the number of rows, leaves every row
    that already holds a value exactly as it is, leaves no [NULL] in the
    column, and running it again changes nothing. *)
Theorem backfill_keeps_existing_values (c v : string) (t : Table) (col : Column) :
  columns t !! c = Some col ->
  exists t',
    exec (UpdateWhereNull c v) t = inr t' /\
    columns t' = columns t /\
    length (rows t') = length (rows t) /\
    (forall i r, rows t !! i = Some r -> is_null (cell c r) = false ->
                 rows t' !! i = Some r) /\
    Forall (fun r => is_null (cell c r) = false) (rows t') /\
    exec (UpdateWhereNull c v) t' = inr t'.
Proof.
  intros Hc. eexists. split; [simpl; by rewrite Hc|]. simpl.
  split; [done|]. split; [by rewrite length_fmap|].
  assert (Hnn : Forall (fun r => is_null (cell c r) = false)
                  ((fun r => if is_null (cell c r) then <[c := VText v]> r else r)
                     <$> rows t)).
  { apply Forall_fmap, Forall_true. intros r. simpl.
    destruct (is_null (cell c r)) eqn:E; [by rewrite cell_insert|done]. }
  split; [|split; [done|]].
  - intros i r Hi Hr. rewrite list_lookup_fmap, Hi. simpl. by rewrite Hr.
  - rewrite Hc. do 2 f_equal.
    rewrite <- list_fmap_compose. apply list_fmap_ext.
    intros i r _. simpl.
    destruct (is_null (cell c r)) eqn:E; [|by rewrite E].
    by rewrite cell_insert.
Qed.

Lemma backfill_keeps_existing_values_run :
  exists t',
    exec (UpdateWhereNull "industry" "Other") Scenario.leads_half_filled = inr t' /\
    columns t' = columns Scenario.leads_half_filled /\
    length (rows t') = length (rows Scenario.leads_half_filled) /\
    (forall i r, rows Scenario.leads_half_filled !! i = Some r ->
                 is_null (cell "industry" r) = false ->
                 rows t' !! i = Some r) /\
    Forall (fun r => is_null (cell "industry" r) = false) (rows t') /\
    exec (UpdateWhereNull "industry" "Other") t' = inr t'.
Proof.
  apply (backfill_keeps_existing_values "industry" "Other"
           Scenario.leads_half_filled (mkColumn false None)).
  reflexivity.
Defined.

(** X23: [SET NOT NULL] is accepted exactly when the column is there and no
    row holds [NULL] in it. *)
Theorem set_not_null_accepted_iff (c : string) (t : Table) :
  (exists t', exec (SetNotNull c) t = inr t') <->
  is_Some (columns t !! c) /\
  Forall (fun r => is_null (cell c r) = false) (rows t).
Proof.
  simpl. destruct (columns t !! c) as [col|] eqn:Hc.
  - destruct (existsb _ (rows t)) eqn:Hex.
    + split; [by intros [t' ?]|]. intros [_ Hall].
      apply no_null_iff in Hall. congruence.
    + split; [|by eauto]. intros _. split; [by eauto|].
      by apply no_null_iff.
  - split; [by intros [t' ?]|]. by intros [[? ?] _].
Qed.

(** Running a list of the four statements on a table that lacks the column
    and has a row, one statement after the other. *)
Ltac run_statements Hc Hr :=
  cbn [run];
  repeat first
    [ rewrite (add_column_nullable _ _ Hc)
    | rewrite (update_undefined _ _ _ Hc)
    | rewrite (set_not_null_undefined _ _ Hc)
    | rewrite (set_default_undefined _ _ _ Hc)
    | rewrite backfill_after_add
    | rewrite set_not_null_after_backfill
    | rewrite (set_not_null_refused_after_add _ _ _ _ Hr)
    | rewrite set_default_column
    | progress cbv beta iota ].

(** X24: the order of the four statements matters. On a table that lacks the
    column and has at least one row, of the twenty-four orders exactly three
    run through: the column must be added first and the backfill must come
    before [SET NOT NULL]; every order that runs through ends in the table
    the migration gives. *)
Theorem migration_orders (t : Table) (ss : list Statement) :
  columns t !! "industry" = None ->
  rows t <> [] ->
  ss ≡ₚ migration ->
  ((exists t', run ss t = inr t') <->
     ss = [ AddColumn "industry"; UpdateWhereNull "industry" "Other";
            SetNotNull "industry"; SetDefault "industry" "Other" ] \/
     ss = [ AddColumn "industry"; UpdateWhereNull "industry" "Other";
            SetDefault "industry" "Other"; SetNotNull "industry" ] \/
     ss = [ AddColumn "industry"; SetDefault "industry" "Other";
            UpdateWhereNull "industry" "Other"; SetNotNull "industry" ]) /\
  (forall t', run ss t = inr t' -> run migration t = inr t').
Proof.
  intros Hc Hr Hp. symmetry in Hp. apply permutations_Permutation in Hp.
  assert (Hm : run migration t
               = inr {| columns := <["industry" := mkColumn true (Some "Other")]>
                                     (columns t);
                        rows := (fun r => <["industry" := VText "Other"]> r)
                                  <$> rows t |}).
  { unfold migration. by run_statements Hc Hr. }
  rewrite Hm. clear Hm.
  unfold migration in Hp. cbn in Hp.
  repeat (apply elem_of_cons in Hp as [->|Hp]);
    [ .. | by apply elem_of_nil in Hp ];
    run_statements Hc Hr;
    (split; [split; [intros [t' Ht']; try discriminate; auto
                    | intros [H|[H|H]]; try discriminate; eauto]
            | intros t' Ht'; try discriminate; by injection Ht' as <-]).
Qed.

Lemma migration_orders_run :
  ((exists t', run migration Scenario.leads_before = inr t') <->
     migration = [ AddColumn "industry"; UpdateWhereNull "industry" "Other";
                   SetNotNull "industry"; SetDefault "industry" "Other" ] \/
     migration = [ AddColumn "industry"; UpdateWhereNull "industry" "Other";
                   SetDefault "industry" "Other"; SetNotNull "industry" ] \/
     migration = [ AddColumn "industry"; SetDefault "industry" "Other";
                   UpdateWhereNull "industry" "Other"; SetNotNull "industry" ]) /\
  (forall t', run migration Scenario.leads_before = inr t' ->
              run migration Scenario.leads_before = inr t').
Proof.
  apply (migration_orders Scenario.leads_before migration).
  - reflexivity.
  - discriminate.
  - reflexivity.
Defined.

Lemma update_no_rows (c v : string) (col : Column) (cols : gmap string Column) :
  exec (UpdateWhereNull c v) {| columns := <[c := col]> cols; rows := [] |}
  = inr {| columns := <[c := col]> cols; rows := [] |}.
Proof. unfold exec. cbn [columns rows]. by rewrite lookup_insert_eq. Qed.

Lemma set_not_null_no_rows (c : string) (col : Column) (cols : gmap string Column) :
  exec (SetNotNull c) {| columns := <[c := col]> cols; rows := [] |}
  = inr {| columns := <[c := mkColumn true (col_default col)]> cols; rows := [] |}.
Proof.
  unfold exec. cbn [columns rows existsb].
  by rewrite lookup_insert_eq, insert_insert_eq.
Qed.

(** X25: on a table without rows the order of the constraint and the
    backfill makes no difference: setting [NOT NULL] first runs through and
    gives the table the migration gives. *)
Theorem constraint_first_on_an_empty_table (t : Table) :
  columns t !! "industry" = None ->
  rows t = [] ->
  run constraint_first t = run migration t /\
  run migration t
  = inr {| columns := <["industry" := mkColumn true (Some "Other")]> (columns t);
           rows := [] |}.
Proof.
  intros Hc Hr. unfold constraint_first, migration. cbn [run].
  rewrite (add_column_nullable _ _ Hc), Hr, fmap_nil. cbv beta iota.
  rewrite set_not_null_no_rows, update_no_rows. cbv beta iota.
  rewrite update_no_rows, set_not_null_no_rows. cbv beta iota.
  rewrite !set_default_column. done.
Qed.

Lemma constraint_first_on_an_empty_table_run :
  run constraint_first Scenario.no_leads = run migration Scenario.no_leads /\
  run migration Scenario.no_leads
  = inr {| columns := <["industry" := mkColumn true (Some "Other")]>
                        (columns Scenario.no_leads);
           rows := [] |}.
Proof.
  apply (constraint_first_on_an_empty_table Scenario.no_leads); reflexivity.
Defined.

End MigrationMore.
